(** * Gatekeeping middleware of the hotel back-office API

    A shallow embedding of the authentication middleware
    ([backend/middlewares/auth.js]), the role based access control
    middleware ([rbac.js], kept in [backend/middlewares/index.js]), the
    progressive delay policies of [backend/middlewares/rateLimiter.js]
    and the password bookkeeping of the user schema ([User.js], kept in
    [backend/models/Role.js]), followed by the properties the
    specification states about them.

    Conventions.  An asynchronous function is modelled by the value its
    promise settles to; a rejected promise or a thrown exception is an
    explicit constructor of the result type.  Mutable stores (the Redis
    client, the in-process blacklist, the user collection) are fields of
    an explicit state record.  JavaScript [null]/[undefined] is [None];
    times are integers ([Z]), milliseconds for [Date.now()] and seconds
    for the [iat]/[exp] claims of a token. *)

From Stdlib Require Import ZArith String Ascii List Bool Lia.
From stdpp Require Import base option strings gmap sets list.

Local Open Scope string_scope.
Local Open Scope Z_scope.

(** ** JavaScript primitives used by the middleware *)

Module Js.

(** Truthiness of a value that is a string, [null] or [undefined]:
    only a non-empty string is truthy. *)
Definition truthy (v : option string) : bool :=
  match v with
  | Some s => negb (String.eqb s "")
  | None => false
  end.

(** [a || b] on such values. *)
Definition or_else (a b : option string) : option string :=
  if truthy a then a else b.

(** [s.startsWith(p)]. *)
Definition startsWith (s p : string) : bool := String.prefix p s.

(** [s.split(sep)] for a one-character separator.  The result is never
    empty: [''.split(' ')] is [['']]. *)
Fixpoint split (sep : ascii) (s : string) : list string :=
  match s with
  | EmptyString => [EmptyString]
  | String c rest =>
      if Ascii.eqb c sep then EmptyString :: split sep rest
      else match split sep rest with
           | piece :: pieces => String c piece :: pieces
           | [] => [String c EmptyString]
           end
  end.

Definition upper_ascii (c : ascii) : ascii :=
  let n := nat_of_ascii c in
  if ((97 <=? n)%nat && (n <=? 122)%nat)%bool then ascii_of_nat (n - 32) else c.

Definition lower_ascii (c : ascii) : ascii :=
  let n := nat_of_ascii c in
  if ((65 <=? n)%nat && (n <=? 90)%nat)%bool then ascii_of_nat (n + 32) else c.

Fixpoint map_string (f : ascii -> ascii) (s : string) : string :=
  match s with
  | EmptyString => EmptyString
  | String c rest => String (f c) (map_string f rest)
  end.

(** [s.toUpperCase()] and [s.toLowerCase()], on the ASCII letters. *)
Definition toUpperCase : string -> string := map_string upper_ascii.
Definition toLowerCase : string -> string := map_string lower_ascii.

(** [xs.join(sep)]. *)
Fixpoint join (sep : string) (xs : list string) : string :=
  match xs with
  | [] => ""
  | [x] => x
  | x :: rest => x +:+ sep +:+ join sep rest
  end.

(** White space of [trim], on the ASCII characters: tab, line feed,
    vertical tab, form feed, carriage return, space. *)
Definition is_white (c : ascii) : bool :=
  let n := nat_of_ascii c in
  ((9 <=? n)%nat && (n <=? 13)%nat) || (n =? 32)%nat.

Fixpoint trimStart (s : string) : string :=
  match s with
  | EmptyString => EmptyString
  | String c rest => if is_white c then trimStart rest else s
  end.

Fixpoint trimEnd (s : string) : string :=
  match s with
  | EmptyString => EmptyString
  | String c rest =>
      match trimEnd rest with
      | EmptyString => if is_white c then EmptyString else String c EmptyString
      | kept => String c kept
      end
  end.

(** [s.trim()]. *)
Definition trim (s : string) : string := trimEnd (trimStart s).

(** [xs.includes(x)] on an array of strings. *)
Definition includes (xs : list string) (x : string) : bool :=
  existsb (String.eqb x) xs.

End Js.

(** ** errorHandler.js: the operational error handed to [next] *)

Record AppError := mkAppError { message : string; statusCode : Z }.

(** What a middleware does with the request: it calls [next()] after
    attaching a value of type [A] to the request, or it calls
    [next(err)]. *)
Inductive Outcome (A : Type) :=
| Next (attached : A)
| NextErr (err : AppError).
Arguments Next {A} attached.
Arguments NextErr {A} err.

(** How a middleware call ends: it returns after calling [next], or it
    throws the named error before reaching [next]. *)
Inductive Ran (A : Type) :=
| Returned (outcome : Outcome A)
| Threw (error_name : string).
Arguments Returned {A} outcome.
Arguments Threw {A} error_name.

(** ** The request, as far as the middleware reads it *)

(** A role document as [populate] returns it. *)
Record Role := mkRole {
  role_name : string;
  role_permissions : list string;
  role_isActive : bool
}.

Inductive AccountStatus := ACTIVE | INACTIVE | SUSPENDED | PENDING.

Definition AccountStatus_name (s : AccountStatus) : string :=
  match s with
  | ACTIVE => "ACTIVE"
  | INACTIVE => "INACTIVE"
  | SUSPENDED => "SUSPENDED"
  | PENDING => "PENDING"
  end.

Definition AccountStatus_eqb (a b : AccountStatus) : bool :=
  match a, b with
  | ACTIVE, ACTIVE | INACTIVE, INACTIVE
  | SUSPENDED, SUSPENDED | PENDING, PENDING => true
  | _, _ => false
  end.

(** A user document with its role populated ([None] when the referenced
    role document does not exist).  [passwordChangedAt] is a date in
    milliseconds, absent until the password is changed. *)
Record User := mkUser {
  _id : string;
  role : option Role;
  accountStatus : AccountStatus;
  passwordChangedAt : option Z
}.

(** The claims of a decoded access token. *)
Record Claims := mkClaims {
  claim_id : string;
  claim_role : string;
  claim_jti : option string;
  claim_iat : Z;
  claim_exp : Z
}.

Record TokenInfo := mkTokenInfo { raw : string; decoded : Claims }.

Record Request := mkRequest {
  headers_authorization : option string;
  signedCookies_jwt : option string;
  cookies_jwt : option string;
  ip : string;
  body_email : option string;
  body_roleName : option string;
  body_role : option string;
  req_user : option User
}.

(** ** External collaborators of auth.js *)

(** The [jsonwebtoken] package.  [jwt.verify] either yields the claims
    of the token or fails with a named error; the model keeps the two
    names [protect] distinguishes and lumps every other failure. *)
Inductive JwtErrorName := TokenExpiredError | JsonWebTokenError | OtherJwtError.

Inductive JwtResult :=
| JwtOk (c : Claims)
| JwtThrows (e : JwtErrorName).

Record Payload := mkPayload {
  payload_id : string;
  payload_role : string;
  payload_jti : string
}.

Record SignOptions := mkSignOptions {
  expiresIn : string;
  issuer : string;
  audience : string
}.

(** [jwt_sign payload secret options now] and [jwt_verify token secret
    now]; the library reads the clock itself, the model passes it. *)
Record JwtLib := mkJwtLib {
  jwt_sign : Payload -> string -> SignOptions -> Z -> string;
  jwt_verify : string -> string -> Z -> JwtResult
}.

(** The variables of [process.env] that auth.js reads. *)
Record ProcessEnv := mkProcessEnv {
  JWT_SECRET : string;
  JWT_EXPIRES_IN : option string;
  JWT_ISSUER : option string;
  JWT_AUDIENCE : option string
}.

(** The Redis client of [config/redis].  A command on it either resolves
    or rejects (connection lost, timeout raised by the client, ...). *)
Record RedisClient := mkRedisClient {
  isOpen : bool;
  redis_data : gmap string string;
  redis_rejects : bool
}.

Inductive Settled (A : Type) :=
| Resolves (v : A)
| Rejects.
Arguments Resolves {A} v.
Arguments Rejects {A}.

Definition redis_get (c : RedisClient) (key : string) : Settled (option string) :=
  if redis_rejects c then Rejects else Resolves (redis_data c !! key).

(** [setEx key ttl value].  Redis refuses a time to live that is not
    positive, so the command rejects then as it does on a failing
    client; the expiry of a stored entry is not modelled.  The field
    [redis_rejects] is the condition of the client at one moment: a
    change of that condition between two commands is a change of state
    (see [same_stores]). *)
Definition redis_setEx (c : RedisClient) (key : string) (ttl : Z) (value : string)
  : Settled RedisClient :=
  if redis_rejects c || (ttl <=? 0) then Rejects
  else Resolves (mkRedisClient (isOpen c) (<[key := value]> (redis_data c)) (redis_rejects c)).

(** The mutable world of the middleware: the optional Redis client, the
    module-level [tokenBlacklist] set, and the user collection as
    [User.findById(id).populate('role')] sees it. *)
Record State := mkState {
  redisClient : option RedisClient;
  tokenBlacklist : gset string;
  users : gmap string User;
  mongo_rejects : bool
}.

Definition User_findById (st : State) (id : string) : Settled (option User) :=
  if mongo_rejects st then Rejects else Resolves (users st !! id).

(** ** models/User.js: the save hook and the password check *)

Module UserModel.

(** A document about to be saved: the stored fields the hook touches
    and the two Mongoose flags it reads. *)
Record Document := mkDocument {
  doc_password : string;
  doc_passwordChangedAt : option Z;
  doc_isNew : bool;
  doc_passwordModified : bool
}.

(** [userSchema.pre('save')].  [hash] stands for [bcrypt.hash], which
    may reject; [now] is [Date.now()].  The result is the document
    handed on by [next()] or [None] for [next(error)]. *)
Definition pre_save (hash : string -> Z -> option string) (now : Z)
    (d : Document) : option Document :=
  if negb (doc_passwordModified d) then Some d
  else
    match hash (doc_password d) 12 with
    | Some hashed =>
        Some (mkDocument hashed
                (if negb (doc_isNew d) then Some (now - 1000)
                 else doc_passwordChangedAt d)
                (doc_isNew d) (doc_passwordModified d))
    | None => None
    end.

(** [parseInt(x / 1000, 10)] for an integer number of milliseconds:
    the quotient truncated towards zero. *)
Definition seconds_of (ms : Z) : Z := Z.quot ms 1000.

(** [userSchema.methods.changedPasswordAfter]. *)
Definition changedPasswordAfter (changedAt : option Z) (JWTTimestamp : Z) : bool :=
  match changedAt with
  | Some t => JWTTimestamp <? seconds_of t
  | None => false
  end.

End UserModel.

(** ** middlewares/auth.js *)

Module Auth.

(** [extractToken]: Authorization header, then signed cookie, then
    plain cookie. *)
Definition extractToken (req : Request) : option string :=
  match headers_authorization req with
  | Some h =>
      if Js.startsWith h "Bearer " then Js.split " " h !! 1%nat
      else if Js.truthy (signedCookies_jwt req) then signedCookies_jwt req
      else if Js.truthy (cookies_jwt req) then cookies_jwt req
      else None
  | None =>
      if Js.truthy (signedCookies_jwt req) then signedCookies_jwt req
      else if Js.truthy (cookies_jwt req) then cookies_jwt req
      else None
  end.

Definition blacklist_key (jti : string) : string := "blacklist:" +:+ jti.

Definition has (s : gset string) (x : string) : bool := bool_decide (x ∈ s).

(** [isTokenBlacklisted]: Redis when the client is open, the in-process
    set otherwise and also when the Redis command rejects. *)
Definition isTokenBlacklisted (st : State) (jti : string) : bool :=
  match redisClient st with
  | Some c =>
      if isOpen c then
        match redis_get c (blacklist_key jti) with
        | Resolves result => bool_decide (result ≠ None)
        | Rejects => has (tokenBlacklist st) jti
        end
      else has (tokenBlacklist st) jti
  | None => has (tokenBlacklist st) jti
  end.

Definition add_local (st : State) (jti : string) : State :=
  mkState (redisClient st) ({[jti]} ∪ tokenBlacklist st) (users st) (mongo_rejects st).

(** [blacklistToken]. *)
Definition blacklistToken (st : State) (jti : string) (ttl : Z) : State :=
  match redisClient st with
  | Some c =>
      if isOpen c then
        match redis_setEx c (blacklist_key jti) ttl "true" with
        | Resolves c' =>
            add_local (mkState (Some c') (tokenBlacklist st) (users st) (mongo_rejects st)) jti
        | Rejects => add_local st jti
        end
      else add_local st jti
  | None => add_local st jti
  end.

(** The errors [protect] hands to [next]. *)
Definition err_not_logged_in : AppError :=
  mkAppError "You are not logged in. Please log in to get access." 401.
Definition err_expired : AppError :=
  mkAppError "Your session has expired. Please log in again." 401.
Definition err_invalid : AppError :=
  mkAppError "Invalid token. Please log in again." 401.
Definition err_verification_failed : AppError :=
  mkAppError "Token verification failed. Please log in again." 401.
Definition err_revoked : AppError :=
  mkAppError "Token has been revoked. Please log in again." 401.
Definition err_not_found : AppError :=
  mkAppError "The user belonging to this token no longer exists." 401.
Definition err_account_disabled (s : AccountStatus) : AppError :=
  mkAppError ("Your account is " +:+ Js.toLowerCase (AccountStatus_name s)
              +:+ ". Please contact the administrator.") 403.
Definition err_role_disabled : AppError :=
  mkAppError "Your assigned role has been deactivated. Please contact the administrator." 403.
Definition err_stale : AppError :=
  mkAppError "Password was recently changed. Please log in again." 401.
Definition err_authentication_failed : AppError :=
  mkAppError "Authentication failed. Please try again." 500.

(** What [protect] attaches: [req.user], [req.token] and whether the
    [X-Token-Refresh-Hint] header was set. *)
Record Authenticated := mkAuthenticated {
  auth_user : User;
  auth_token : TokenInfo;
  refresh_hint : bool
}.

(** [currentUser.role?.isActive]. *)
Definition role_active (u : User) : bool :=
  match role u with
  | Some r => role_isActive r
  | None => false
  end.

(** Step 9: [tokenAge > tokenTTL * 0.75], with both sides integers. *)
Definition near_expiry (now : Z) (d : Claims) : bool :=
  let tokenAge := now / 1000 - claim_iat d in
  let tokenTTL := claim_exp d - claim_iat d in
  3 * tokenTTL <? 4 * tokenAge.

(** Step 3: the blacklist is consulted only for a token with a [jti]. *)
Definition revoked (st : State) (d : Claims) : bool :=
  match claim_jti d with
  | Some jti => Js.truthy (Some jti) && isTokenBlacklisted st jti
  | None => false
  end.

(** Steps 4 to 9 of [protect], after the token is decoded and found not
    revoked. *)
Definition check_user (st : State) (now : Z) (token : string) (d : Claims)
  : Outcome Authenticated :=
  match User_findById st (claim_id d) with
  | Rejects => NextErr err_authentication_failed
  | Resolves None => NextErr err_not_found
  | Resolves (Some currentUser) =>
      if negb (AccountStatus_eqb (accountStatus currentUser) ACTIVE)
      then NextErr (err_account_disabled (accountStatus currentUser))
      else if negb (role_active currentUser)
      then NextErr err_role_disabled
      else if UserModel.changedPasswordAfter (passwordChangedAt currentUser) (claim_iat d)
      then NextErr err_stale
      else Next (mkAuthenticated currentUser (mkTokenInfo token d) (near_expiry now d))
  end.

(** [protect]. *)
Definition protect (lib : JwtLib) (env : ProcessEnv) (st : State) (now : Z)
    (req : Request) : Outcome Authenticated :=
  let token := extractToken req in
  if negb (Js.truthy token) then NextErr err_not_logged_in
  else
    match token with
    | None => NextErr err_not_logged_in
    | Some t =>
        match jwt_verify lib t (JWT_SECRET env) now with
        | JwtThrows TokenExpiredError => NextErr err_expired
        | JwtThrows JsonWebTokenError => NextErr err_invalid
        | JwtThrows OtherJwtError => NextErr err_verification_failed
        | JwtOk d =>
            if revoked st d then NextErr err_revoked
            else check_user st now t d
        end
    end.

(** [optionalAuth]: always [next()], with [req.user] set to a user or
    to [null]. *)
Definition optionalAuth (lib : JwtLib) (env : ProcessEnv) (st : State) (now : Z)
    (req : Request) : Outcome (option User) :=
  let token := extractToken req in
  if negb (Js.truthy token) then Next None
  else
    match token with
    | None => Next None
    | Some t =>
        match jwt_verify lib t (JWT_SECRET env) now with
        | JwtThrows _ => Next None
        | JwtOk d =>
            match User_findById st (claim_id d) with
            | Rejects => Next None
            | Resolves None => Next None
            | Resolves (Some user) =>
                if AccountStatus_eqb (accountStatus user) ACTIVE
                then Next (Some user)
                else Next None
            end
        end
    end.

(** [x || fallback] for an environment variable. *)
Definition env_or (v : option string) (fallback : string) : string :=
  match Js.or_else v (Some fallback) with
  | Some s => s
  | None => fallback
  end.

(** [signToken]; [uuid] is the value [crypto.randomUUID()] returns. *)
Definition signToken (lib : JwtLib) (env : ProcessEnv) (now : Z) (uuid : string)
    (userId role : string) : string * string :=
  let jti := uuid in
  let token :=
    jwt_sign lib (mkPayload userId role jti) (JWT_SECRET env)
      (mkSignOptions (env_or (JWT_EXPIRES_IN env) "15m")
                     (env_or (JWT_ISSUER env) "hotel-management-api")
                     (env_or (JWT_AUDIENCE env) "hotel-management-client"))
      now in
  (token, jti).

(** How a handler that answers itself ends: a response was sent, or the
    error went to [next]. *)
Inductive Reply :=
| Responded (status : Z) (msg : string)
| Forwarded (err : AppError).

Definition err_logout_failed : AppError :=
  mkAppError "Logout failed. Please try again." 500.

(** The state part of [logout]: the token of the request is blacklisted
    for its remaining life when the request carries a token and
    [req.token] (left by [protect]) has a [jti]. *)
Definition logout_state (st : State) (now : Z) (req : Request)
    (req_token : option TokenInfo) : State :=
  match req_token with
  | Some info =>
      match claim_jti (decoded info) with
      | Some jti =>
          if Js.truthy (extractToken req) && Js.truthy (Some jti) then
            let remainingTime := claim_exp (decoded info) - now / 1000 in
            blacklistToken st jti (Z.max remainingTime 0)
          else st
      | None => st
      end
  | None => st
  end.

(** [logout].  [AuditLog.logAction] swallows its own failures and does
    not touch the modelled state; [response_throws] says whether setting
    the cookies or sending the answer throws, which the handler turns
    into the 500 error. *)
Definition logout (st : State) (now : Z) (req : Request)
    (req_token : option TokenInfo) (response_throws : bool) : State * Reply :=
  let st' := logout_state st now req req_token in
  if response_throws then (st', Forwarded err_logout_failed)
  else (st', Responded 200 "Logged out successfully").

End Auth.

(** ** middlewares/rbac.js: hierarchy, permissions, escalation guard *)

Module Rbac.

(** [ROLE_HIERARCHY]: higher number, more authority.  The finite map
    holds the own properties of the object; a lookup agrees with the
    JavaScript one on every key that [Object.prototype] does not define,
    in particular on the role names of the schema, on the upper-cased
    names [preventPrivilegeEscalation] looks up, and on a missing name.
    The properties below keep to such keys. *)
Definition ROLE_HIERARCHY : gmap string Z :=
  list_to_map
    [("HOUSEKEEPING", 0); ("RECEPTIONIST", 1); ("MANAGER", 2); ("ADMIN", 3)].

(** [DEFAULT_ROLE_PERMISSIONS], its own properties; as for
    [ROLE_HIERARCHY] the properties below keep to role names of the
    schema and to a missing role. *)
Definition DEFAULT_ROLE_PERMISSIONS : gmap string (list string) :=
  list_to_map
    [("ADMIN",
      ["manage_users"; "manage_roles"; "manage_rooms"; "manage_reservations";
       "manage_payments"; "manage_housekeeping"; "view_reports"; "manage_guests";
       "check_in"; "check_out"; "assign_tasks"; "view_audit_logs"]);
     ("MANAGER",
      ["manage_rooms"; "manage_reservations"; "manage_payments";
       "manage_housekeeping"; "view_reports"; "manage_guests"; "check_in";
       "check_out"; "assign_tasks"]);
     ("RECEPTIONIST",
      ["manage_reservations"; "manage_guests"; "check_in"; "check_out";
       "view_reports"]);
     ("HOUSEKEEPING", ["manage_housekeeping"; "assign_tasks"])].

(** [req.user.role?.name]. *)
Definition userRoleName (u : User) : option string := role_name <$> role u.

(** [req.user.role?.permissions || []]. *)
Definition dbPermissions (u : User) : list string :=
  match role u with
  | Some r => role_permissions r
  | None => []
  end.

(** [DEFAULT_ROLE_PERMISSIONS[userRoleName] || []]. *)
Definition defaultPermissions (u : User) : list string :=
  match userRoleName u with
  | Some name => default [] (DEFAULT_ROLE_PERMISSIONS !! name)
  | None => []
  end.

(** [new Set([...defaultPermissions, ...dbPermissions])], the same
    expression in [requirePermission] and [requireAnyPermission]. *)
Definition allPermissions (u : User) : gset string :=
  list_to_set (defaultPermissions u ++ dbPermissions u).

Definition has (s : gset string) (x : string) : bool := bool_decide (x ∈ s).

Definition err_authentication_required : AppError :=
  mkAppError "Authentication required." 401.

(** [requirePermission(...requiredPermissions)]; on success the
    resolved set is attached as [req.userPermissions]. *)
Definition requirePermission (requiredPermissions : list string) (req : Request)
  : Outcome (gset string) :=
  match req_user req with
  | None => NextErr err_authentication_required
  | Some u =>
      let all := allPermissions u in
      if forallb (has all) requiredPermissions then Next all
      else
        let missingPermissions :=
          List.filter (fun perm => negb (has all perm)) requiredPermissions in
        NextErr (mkAppError ("Insufficient permissions. Missing: "
                             +:+ Js.join ", " missingPermissions) 403)
  end.

(** [requireAnyPermission(...requiredPermissions)]. *)
Definition requireAnyPermission (requiredPermissions : list string) (req : Request)
  : Outcome (gset string) :=
  match req_user req with
  | None => NextErr err_authentication_required
  | Some u =>
      let all := allPermissions u in
      if existsb (has all) requiredPermissions then Next all
      else
        NextErr (mkAppError ("You need at least one of the following permissions: "
                             +:+ Js.join ", " requiredPermissions) 403)
  end.

Definition err_invalid_role : AppError :=
  mkAppError "Invalid role specified." 400.
Definition err_escalation : AppError :=
  mkAppError "You cannot assign a role equal to or higher than your own." 403.

(** [ROLE_HIERARCHY[req.user.role?.name]]. *)
Definition userLevel (u : User) : option Z :=
  match userRoleName u with
  | Some name => ROLE_HIERARCHY !! name
  | None => None
  end.

(** [requestedLevel >= userLevel] for a number on the left: false when
    the right side is [undefined]. *)
Definition js_ge (requestedLevel : Z) (level : option Z) : bool :=
  match level with
  | Some l => l <=? requestedLevel
  | None => false
  end.

(** [preventPrivilegeEscalation]. *)
Definition preventPrivilegeEscalation (req : Request) : Outcome unit :=
  match req_user req with
  | None => NextErr err_authentication_required
  | Some u =>
      let requestedRoleName := Js.or_else (body_roleName req) (body_role req) in
      if negb (Js.truthy requestedRoleName) then Next tt
      else
        match requestedRoleName with
        | None => Next tt
        | Some requested =>
            match ROLE_HIERARCHY !! Js.toUpperCase requested with
            | None => NextErr err_invalid_role
            | Some requestedLevel =>
                if js_ge requestedLevel (userLevel u) then NextErr err_escalation
                else Next tt
            end
        end
  end.

(** [restrictTo(...allowedRoles)]. *)
Definition restrictTo (allowedRoles : list string) (req : Request) : Outcome unit :=
  match req_user req with
  | None => NextErr err_authentication_required
  | Some u =>
      if negb (Js.truthy (userRoleName u)) then
        NextErr (mkAppError
          "Your role could not be determined. Please contact the administrator." 403)
      else
        match userRoleName u with
        | None =>
            NextErr (mkAppError
              "Your role could not be determined. Please contact the administrator." 403)
        | Some name =>
            if negb (Js.includes allowedRoles name) then
              NextErr (mkAppError
                ("You do not have permission to perform this action. Required role(s): "
                 +:+ Js.join ", " allowedRoles) 403)
            else Next tt
        end
  end.

Definition err_level_unknown : AppError :=
  mkAppError "Role level could not be determined." 403.

(** [requireMinimumRole(minimumRole)]. *)
Definition requireMinimumRole (minimumRole : string) (req : Request) : Outcome unit :=
  match req_user req with
  | None => NextErr err_authentication_required
  | Some u =>
      match userLevel u, ROLE_HIERARCHY !! minimumRole with
      | Some level, Some requiredLevel =>
          if level <? requiredLevel then
            NextErr (mkAppError
              ("Insufficient authority. Minimum required role: " +:+ minimumRole) 403)
          else Next tt
      | _, _ => NextErr err_level_unknown
      end
  end.

(** [a >= b] on two hierarchy lookups: false as soon as one of them is
    [undefined]. *)
Definition js_ge_levels (a b : option Z) : bool :=
  match a, b with
  | Some x, Some y => y <=? x
  | _, _ => false
  end.

(** [checkOwnership(ownerField, bypassRole)]; the attached value is
    [req.ownershipFilter]: nothing for a bypassing role, otherwise the
    owner field with the id of the user. *)
Definition checkOwnership (ownerField bypassRole : string) (req : Request)
  : Outcome (option (string * string)) :=
  match req_user req with
  | None => NextErr err_authentication_required
  | Some u =>
      if js_ge_levels (userLevel u) (ROLE_HIERARCHY !! bypassRole) then Next None
      else Next (Some (ownerField, _id u))
  end.

(** [protectedFields.filter((field) => req.body.hasOwnProperty(field))],
    [body_keys] being the own property names of [req.body] and
    [body_inherits] telling whether its prototype chain still provides
    [Object.prototype.hasOwnProperty] (it does for a body as the JSON
    parser returns it; [sanitizeBody] can have replaced the prototype).
    An own property named ['hasOwnProperty'] holds a JSON value, not a
    function, and without the inherited method the lookup is
    [undefined]: in both cases the first call of the callback throws a
    [TypeError]. *)
Definition blockedFields (protectedFields body_keys : list string)
    (body_inherits : bool) : option (list string) :=
  match protectedFields with
  | [] => Some []
  | _ :: _ =>
      if Js.includes body_keys "hasOwnProperty" || negb body_inherits then None
      else Some (List.filter (Js.includes body_keys) protectedFields)
  end.

(** [preventSelfModification(protectedFields)].  [params_id] and
    [params_userId] are the route parameters. *)
Definition preventSelfModification (protectedFields : list string)
    (params_id params_userId : option string) (body_keys : list string)
    (body_inherits : bool) (req : Request) : Ran unit :=
  match req_user req with
  | None => Returned (NextErr err_authentication_required)
  | Some u =>
      let targetUserId := Js.or_else params_id params_userId in
      match targetUserId with
      | Some target =>
          if Js.truthy targetUserId && String.eqb target (_id u) then
            match blockedFields protectedFields body_keys body_inherits with
            | None => Threw "TypeError"
            | Some blocked =>
                if (0 <? Z.of_nat (length blocked)) then
                  Returned (NextErr (mkAppError
                    ("You cannot modify your own " +:+ Js.join ", " blocked +:+ ".") 403))
                else Returned (Next tt)
            end
          else Returned (Next tt)
      | None => Returned (Next tt)
      end
  end.

End Rbac.

(** ** middlewares/rateLimiter.js: the progressive delay policies *)

Module RateLimiter.

(** The options object passed to [slowDown]. *)
Record SlowDownOptions := mkSlowDownOptions {
  windowMs : Z;
  delayAfter : Z;
  delayMs : Z -> Z;
  maxDelayMs : Z;
  skip : Request -> bool;
  keyGenerator : Request -> string
}.

(** [createSkipFn(trustedIPs)]. *)
Definition createSkipFn (trustedIPs : list string) (req : Request) : bool :=
  let defaultTrusted := ["127.0.0.1"; "::1"; "::ffff:127.0.0.1"] in
  let allTrusted : gset string := list_to_set (defaultTrusted ++ trustedIPs) in
  bool_decide (ip req ∈ allTrusted).

(** [req.body?.email?.toLowerCase() || '']. *)
Definition claimed_email (req : Request) : string :=
  match Js.or_else (Js.toLowerCase <$> body_email req) (Some "") with
  | Some e => e
  | None => ""
  end.

Definition speedLimiter : SlowDownOptions :=
  mkSlowDownOptions (15 * 60 * 1000) 30 (fun hits => hits * 100) 5000
    (createSkipFn []) (fun req => ip req).

Definition authSpeedLimiter : SlowDownOptions :=
  mkSlowDownOptions (15 * 60 * 1000) 2 (fun hits => hits * 500) 10000
    (createSkipFn [])
    (fun req => "auth_slow:" +:+ ip req +:+ ":" +:+ claimed_email req).

(** Modelled from the spec: the delay computation of the [slowDown]
    middleware factory (package [express-slow-down]) is not part of the
    sources.  The spec: hit counts up to the threshold add no delay;
    past the threshold the configured [delayMs] of the hit count is
    inserted, capped at [maxDelayMs]. *)
Definition slowDown_delay (o : SlowDownOptions) (hits : Z) : Z :=
  if hits <=? delayAfter o then 0
  else Z.min (delayMs o hits) (maxDelayMs o).

(** Modelled from the spec: one request through a [slowDown]
    middleware over its per-key hit counters.  A skipped request
    consumes no budget; any other request increments the counter of its
    key and is delayed by [slowDown_delay] of the new count. *)
Definition slowDown (o : SlowDownOptions) (counters : gmap string Z) (req : Request)
  : gmap string Z * Z :=
  if skip o req then (counters, 0)
  else
    let key := keyGenerator o req in
    let hits := default 0 (counters !! key) + 1 in
    (<[key := hits]> counters, slowDown_delay o hits).

(** [req.user?._id?.toString() || '']. *)
Definition userId_or_empty (req : Request) : string :=
  match req_user req with
  | Some u => if Js.truthy (Some (_id u)) then _id u else ""
  | None => ""
  end.

(** [createKeyGenerator(prefix)]. *)
Definition createKeyGenerator (prefix : string) (req : Request) : string :=
  prefix +:+ ":" +:+ ip req +:+ ":" +:+ userId_or_empty req.

(** The [keyGenerator] of [authLimiter] and of [passwordResetLimiter]. *)
Definition authLimiter_key (req : Request) : string :=
  "auth:" +:+ ip req +:+ ":" +:+ claimed_email req.

Definition passwordResetLimiter_key (req : Request) : string :=
  "pwd_reset:" +:+ ip req +:+ ":" +:+ claimed_email req.

End RateLimiter.

(** ** middlewares/security.js: the CSRF double-submit check *)

Module Security.

Definition err_csrf_missing : AppError := mkAppError "CSRF token missing." 403.
Definition err_csrf_invalid : AppError := mkAppError "Invalid CSRF token." 403.

(** [csrfProtection].  [method] is [req.method], [csrfCookie] the signed
    cookie ['csrf-token'] and [csrfHeader] the header ['x-csrf-token']. *)
Definition csrfProtection (method : string) (csrfCookie csrfHeader : option string)
    (req : Request) : Outcome unit :=
  if Js.includes ["GET"; "HEAD"; "OPTIONS"] method then Next tt
  else
    match headers_authorization req with
    | Some h =>
        if Js.startsWith h "Bearer " then Next tt
        else if negb (Js.truthy csrfCookie) || negb (Js.truthy csrfHeader)
        then NextErr err_csrf_missing
        else if negb (bool_decide (csrfCookie = csrfHeader)) then NextErr err_csrf_invalid
        else Next tt
    | None =>
        if negb (Js.truthy csrfCookie) || negb (Js.truthy csrfHeader)
        then NextErr err_csrf_missing
        else if negb (bool_decide (csrfCookie = csrfHeader)) then NextErr err_csrf_invalid
        else Next tt
    end.

End Security.

(** ** middlewares/validate.js: [sanitizeBody] *)

Module Validate.

(** A parsed JSON body.  Numbers are carried along untouched. *)
#[warnings="-register-all"]
Inductive JsValue :=
| JsNull
| JsBool (b : bool)
| JsNumber (n : Z)
| JsString (s : string)
| JsArray (items : list JsValue)
| JsObject (fields : list (string * JsValue)).

(** Some ['>'] occurs in the string. *)
Fixpoint has_gt (s : string) : bool :=
  match s with
  | EmptyString => false
  | String c rest => Ascii.eqb c ">" || has_gt rest
  end.

(** [s.replace(/<[^>]*>/g, '')] as a left to right scan.  A ['<'] opens
    a match exactly when some ['>'] follows it, and the match runs to the
    first such ['>']; [in_tag] says the scan is inside a match. *)
Fixpoint strip_scan (in_tag : bool) (s : string) : string :=
  match s with
  | EmptyString => EmptyString
  | String c rest =>
      if in_tag then
        if Ascii.eqb c ">" then strip_scan false rest else strip_scan true rest
      else if Ascii.eqb c "<" && has_gt rest then strip_scan true rest
      else String c (strip_scan false rest)
  end.

Definition strip_tags (s : string) : string := strip_scan false s.

(** What the reducer of [sanitize] stores under a key: a string is
    trimmed and stripped, an object or an array is sanitized in turn,
    anything else is kept.  The accumulator of an object is [{}], on
    which the assignment [acc['__proto__'] = ...] runs the prototype
    setter instead of creating a property: that key is lost.  The value
    is a value of own properties; the prototype such an assignment
    installs is not part of it. *)
Fixpoint sanitize_value (v : JsValue) : JsValue :=
  match v with
  | JsString s => JsString (strip_tags (Js.trim s))
  | JsArray items => JsArray (map sanitize_value items)
  | JsObject fields =>
      JsObject
        (flat_map
           (fun kv =>
              let '(k, x) := kv in
              if String.eqb k "__proto__" then [] else [(k, sanitize_value x)])
           fields)
  | other => other
  end.

(** [sanitize(obj)]: a value that is not an object is returned as is. *)
Definition sanitize (obj : JsValue) : JsValue :=
  match obj with
  | JsArray _ | JsObject _ => sanitize_value obj
  | other => other
  end.

(** [sanitizeBody], as a function of [req.body] ([None] when absent). *)
Definition sanitizeBody (body : option JsValue) : option JsValue :=
  sanitize <$> body.

End Validate.

(** ** middlewares/cors.js: the origin decisions *)

Module Cors.

Record CorsEnv := mkCorsEnv {
  FRONTEND_URL : option string;
  ADMIN_URL : option string;
  ALLOWED_ORIGINS : option string;
  NODE_ENV : option string
}.

Definition is_development (env : CorsEnv) : bool :=
  bool_decide (NODE_ENV env = Some "development").

(** The one-element list of a set, non-empty variable. *)
Definition if_set (v : option string) : list string :=
  match v with
  | Some s => if Js.truthy v then [s] else []
  | None => []
  end.

(** [getAllowedOrigins]. *)
Definition getAllowedOrigins (env : CorsEnv) : list string :=
  if_set (FRONTEND_URL env)
  ++ if_set (ADMIN_URL env)
  ++ match ALLOWED_ORIGINS env with
     | Some extra => if Js.truthy (Some extra) then map Js.trim (Js.split "," extra) else []
     | None => []
     end
  ++ (if is_development env then
        ["http://localhost:3000"; "http://localhost:3001"; "http://localhost:4000";
         "http://localhost:5173"; "http://localhost:8080"; "http://127.0.0.1:3000";
         "http://127.0.0.1:5173"]
      else []).

(** [corsOptions.origin]: [callback(null, true)] is [Next tt]. *)
Definition corsOrigin (env : CorsEnv) (origin : option string) : Outcome unit :=
  match origin with
  | None => Next tt
  | Some o =>
      if negb (Js.truthy origin) then Next tt
      else if Js.includes (getAllowedOrigins env) o then Next tt
      else if is_development env then Next tt
      else NextErr (mkAppError
             ("CORS policy does not allow access from origin: " +:+ o) 403)
  end.

(** [strictCorsOptions.origin]. *)
Definition strictCorsOrigin (env : CorsEnv) (origin : option string) : Outcome unit :=
  let adminOrigins : list string :=
    (if_set (ADMIN_URL env) ++ if_set (FRONTEND_URL env)
     ++ (if is_development env then ["http://localhost:3000"; "http://localhost:5173"]
         else []))%list in
  match origin with
  | None => Next tt
  | Some o =>
      if negb (Js.truthy origin) || Js.includes adminOrigins o then Next tt
      else NextErr (mkAppError
             "Strict CORS policy: Origin not authorized for admin operations." 403)
  end.

End Cors.

(** * Vocabulary of the properties *)

(** The request carries an Authorization header that starts with
    ['Bearer ']. *)
Definition has_bearer (req : Request) : bool :=
  match headers_authorization req with
  | Some h => Js.startsWith h "Bearer "
  | None => false
  end.

(** No space occurs in the string. *)
Fixpoint no_space (s : string) : bool :=
  match s with
  | EmptyString => true
  | String c rest => negb (Ascii.eqb c " ") && no_space rest
  end.

(** A request with the given header and cookies and nothing else. *)
Definition request_with (authorization signed plain : option string) : Request :=
  mkRequest authorization signed plain "203.0.113.7" None None None None.

(** The Revocation Store cannot be consulted by [isTokenBlacklisted]:
    there is a Redis client, and it is closed or its command rejects. *)
Definition lookup_fails (st : State) : bool :=
  match redisClient st with
  | Some c => negb (isOpen c) || redis_rejects c
  | None => false
  end.

(** The request carries [token], the token verifies to the claims [c],
    the identifier is not revoked, and the identity [u] it names exists,
    is ACTIVE and has an active role: every check of [protect] before
    the password check passes. *)
Definition reaches_password_check (lib : JwtLib) (env : ProcessEnv) (st : State)
    (now : Z) (req : Request) (token : string) (c : Claims) (u : User) : Prop :=
  Auth.extractToken req = Some token
  /\ Js.truthy (Some token) = true
  /\ jwt_verify lib token (JWT_SECRET env) now = JwtOk c
  /\ Auth.revoked st c = false
  /\ User_findById st (claim_id c) = Resolves (Some u)
  /\ accountStatus u = ACTIVE
  /\ Auth.role_active u = true.

(** The contract of the [jsonwebtoken] package that issue-then-verify
    rests on, [lifetime] being its reading of [expiresIn] in seconds: a
    signed token is never the empty string, and verifying it with the
    secret it was signed with, before its expiry, yields the signed
    payload with [iat] the second of signing and [exp] that second plus
    the lifetime. *)
Definition jwt_honest (lib : JwtLib) (lifetime : string -> Z) : Prop :=
  (forall p secret opts now, jwt_sign lib p secret opts now <> "")
  /\ (forall p secret opts now later,
        later / 1000 < now / 1000 + lifetime (expiresIn opts) ->
        jwt_verify lib (jwt_sign lib p secret opts now) secret later
        = JwtOk (mkClaims (payload_id p) (payload_role p) (Some (payload_jti p))
                   (now / 1000) (now / 1000 + lifetime (expiresIn opts)))).

(** The character does not occur in the string. *)
Fixpoint lacks (sep : ascii) (s : string) : bool :=
  match s with
  | EmptyString => true
  | String c rest => negb (Ascii.eqb c sep) && lacks sep rest
  end.

(** *** A library that meets the contract

    Tokens are six dot-separated fields: subject, role, identifier,
    [iat], [exp] and, in place of a signature, the secret; texts are
    written bit by bit and numbers in binary, so no field holds a dot. *)
Module JwtCodec.

Definition bit_char (b : bool) : ascii := if b then "1"%char else "0"%char.

Definition char_bit (c : ascii) : option bool :=
  if Ascii.eqb c "1" then Some true
  else if Ascii.eqb c "0" then Some false
  else None.

Fixpoint encode_text (s : string) : string :=
  match s with
  | EmptyString => EmptyString
  | String (Ascii b0 b1 b2 b3 b4 b5 b6 b7) rest =>
      String (bit_char b0) (String (bit_char b1) (String (bit_char b2)
      (String (bit_char b3) (String (bit_char b4) (String (bit_char b5)
      (String (bit_char b6) (String (bit_char b7) (encode_text rest))))))))
  end.

Fixpoint decode_text (s : string) : option string :=
  match s with
  | EmptyString => Some EmptyString
  | String c0 (String c1 (String c2 (String c3 (String c4 (String c5
      (String c6 (String c7 rest))))))) =>
      match char_bit c0, char_bit c1, char_bit c2, char_bit c3,
            char_bit c4, char_bit c5, char_bit c6, char_bit c7, decode_text rest with
      | Some b0, Some b1, Some b2, Some b3, Some b4, Some b5, Some b6, Some b7,
        Some text => Some (String (Ascii b0 b1 b2 b3 b4 b5 b6 b7) text)
      | _, _, _, _, _, _, _, _, _ => None
      end
  | _ => None
  end.

Fixpoint encode_pos (p : positive) : string :=
  match p with
  | xH => EmptyString
  | xO q => String "0" (encode_pos q)
  | xI q => String "1" (encode_pos q)
  end.

Fixpoint decode_pos (s : string) : option positive :=
  match s with
  | EmptyString => Some xH
  | String c rest =>
      match char_bit c, decode_pos rest with
      | Some true, Some q => Some (xI q)
      | Some false, Some q => Some (xO q)
      | _, _ => None
      end
  end.

Definition encode_Z (z : Z) : string :=
  match z with
  | Z0 => "z"
  | Zpos p => String "p" (encode_pos p)
  | Zneg p => String "n" (encode_pos p)
  end.

Definition decode_Z (s : string) : option Z :=
  match s with
  | String c rest =>
      if Ascii.eqb c "z" then (if String.eqb rest "" then Some 0 else None)
      else if Ascii.eqb c "p" then Z.pos <$> decode_pos rest
      else if Ascii.eqb c "n" then Z.neg <$> decode_pos rest
      else None
  | EmptyString => None
  end.

(** The library's reading of [expiresIn], in seconds. *)
Definition timespan (s : string) : Z :=
  if String.eqb s "15m" then 900
  else if String.eqb s "1h" then 3600
  else if String.eqb s "7d" then 604800
  else 0.

Definition field (text rest : string) : string := text +:+ String "." rest.

Definition sign (p : Payload) (secret : string) (opts : SignOptions) (now : Z) : string :=
  field (encode_text (payload_id p))
    (field (encode_text (payload_role p))
       (field (encode_text (payload_jti p))
          (field (encode_Z (now / 1000))
             (field (encode_Z (now / 1000 + timespan (expiresIn opts)))
                (encode_text secret))))).

Definition verify (token secret : string) (now : Z) : JwtResult :=
  match Js.split "." token with
  | [f_id; f_role; f_jti; f_iat; f_exp; f_key] =>
      match decode_text f_id, decode_text f_role, decode_text f_jti,
            decode_Z f_iat, decode_Z f_exp, decode_text f_key with
      | Some id, Some role, Some jti, Some iat, Some exp, Some key =>
          if String.eqb key secret then
            if exp <=? now / 1000 then JwtThrows TokenExpiredError
            else JwtOk (mkClaims id role (Some jti) iat exp)
          else JwtThrows JsonWebTokenError
      | _, _, _, _, _, _ => JwtThrows JsonWebTokenError
      end
  | _ => JwtThrows JsonWebTokenError
  end.

Definition lib : JwtLib := mkJwtLib sign verify.

End JwtCodec.

(** *** A small deployment used to run the middleware *)

Definition demo_token : string := "eyJhbGciOiJIUzI1NiJ9.eyJpZCI6InUxIn0.c2ln".

Definition demo_claims : Claims :=
  mkClaims "u1" "RECEPTIONIST" (Some "jti-1") 1700000000 1700000900.

(** A stand-in for the library that knows one token: signed with the
    secret ["s3cret"], issued at 1700000000 for fifteen minutes. *)
Definition demoJwt : JwtLib :=
  mkJwtLib
    (fun _ _ _ _ => demo_token)
    (fun token secret now =>
       if String.eqb token demo_token && String.eqb secret "s3cret" then
         if claim_exp demo_claims <=? now / 1000 then JwtThrows TokenExpiredError
         else JwtOk demo_claims
       else JwtThrows JsonWebTokenError).

Definition demoEnv : ProcessEnv := mkProcessEnv "s3cret" None None None.

Definition receptionist : Role :=
  mkRole "RECEPTIONIST" ["manage_reservations"; "check_in"] true.

Definition alice : User := mkUser "u1" (Some receptionist) ACTIVE None.

(** Ten seconds after the token was issued. *)
Definition demo_now : Z := 1700000010000.

Definition bearer_request : Request :=
  request_with (Some ("Bearer " +:+ demo_token)) None None.

(** Redis holds the revocation of ["jti-1"] (written by another
    replica) but its commands reject; the local set is empty. *)
Definition outage_client : RedisClient :=
  mkRedisClient true {[Auth.blacklist_key "jti-1" := "true"]} true.

Definition st_outage : State :=
  mkState (Some outage_client) ∅ {["u1" := alice]} false.

(** No Redis; nothing revoked yet. *)
Definition st_local : State := mkState None ∅ {["u1" := alice]} false.

(** The same deployment after [logout] blacklisted the token. *)
Definition st_logged_out : State := Auth.blacklistToken st_local "jti-1" 890.

(** The role of the identity was deactivated. *)
Definition st_role_off : State :=
  mkState None ∅
    {["u1" := mkUser "u1" (Some (mkRole "RECEPTIONIST" [] false)) ACTIVE None]} false.

(** A request of the actor with the given role name that names
    [requested] in [body.role]. *)
Definition acting (roleName : string) : User :=
  mkUser "actor" (Some (mkRole roleName [] true)) ACTIVE None.

Definition assign_request (actorRole requested : string) : Request :=
  mkRequest None None None "203.0.113.7" None None (Some requested)
    (Some (acting actorRole)).

(** A request without [req.user] and without a role field. *)
Definition anonymous_request : Request := request_with None None None.

(** *** A password change in that deployment *)

(** A stand-in for [bcrypt.hash]. *)
Definition demo_hash (password : string) (cost : Z) : option string :=
  Some ("$2a$12$" +:+ password).

(** The stored user document of the identity, its password just
    modified. *)
Definition changing_document : UserModel.Document :=
  UserModel.mkDocument "correct horse battery" None false true.

(** The save happens 500 seconds after the token was issued. *)
Definition change_time : Z := 1700000500000.

(** The deployment after the save; the request arrives 100 seconds
    later, before the token expires. *)
Definition st_changed : State :=
  mkState None ∅
    {["u1" := mkUser "u1" (Some receptionist) ACTIVE (Some (change_time - 1000))]}
    false.

Definition after_change : Z := 1700000600000.

(** The permission strings the role schema accepts
    ([models/Role.js], the [enum] of [permissions]). *)
Definition Role_permission_enum : list string :=
  ["manage_users"; "manage_roles"; "manage_rooms"; "manage_reservations";
   "manage_payments"; "manage_housekeeping"; "view_reports"; "manage_guests";
   "check_in"; "check_out"; "assign_tasks"; "view_audit_logs"].

(** A request of the given user with an empty body. *)
Definition request_of (u : User) : Request :=
  mkRequest None None None "203.0.113.7" None None None (Some u).

(** A request from the given address that claims the given email. *)
Definition login_attempt (address : string) (email : option string) : Request :=
  mkRequest None None None address email None None None.

(** Some ['<'] of the string is followed, somewhere, by a ['>']: the
    pattern [/<[^>]*>/] matches in it. *)
Fixpoint has_tag (s : string) : bool :=
  match s with
  | EmptyString => false
  | String c rest => (Ascii.eqb c "<" && Validate.has_gt rest) || has_tag rest
  end.

(** The predicate holds of every string value inside the JSON value, at
    any depth (property names are not looked at). *)
Fixpoint all_strings (P : string -> bool) (v : Validate.JsValue) : bool :=
  match v with
  | Validate.JsString s => P s
  | Validate.JsArray items => forallb (all_strings P) items
  | Validate.JsObject fields => forallb (fun kv => all_strings P (snd kv)) fields
  | _ => true
  end.

(** The property names of the JSON value, level by level. *)
Fixpoint shape (v : Validate.JsValue) : Validate.JsValue :=
  match v with
  | Validate.JsArray items => Validate.JsArray (map shape items)
  | Validate.JsObject fields =>
      Validate.JsObject (map (fun kv => (fst kv, shape (snd kv))) fields)
  | _ => Validate.JsNull
  end.

(** The JSON value without its properties named ['__proto__'], at any
    depth. *)
Fixpoint without_proto (v : Validate.JsValue) : Validate.JsValue :=
  match v with
  | Validate.JsArray items => Validate.JsArray (map without_proto items)
  | Validate.JsObject fields =>
      Validate.JsObject
        (flat_map
           (fun kv =>
              if String.eqb (fst kv) "__proto__" then []
              else [(fst kv, without_proto (snd kv))])
           fields)
  | other => other
  end.

(** The same state once the Redis commands resolve again. *)
Definition redis_recovers (st : State) : State :=
  mkState
    (match redisClient st with
     | Some c => Some (mkRedisClient (isOpen c) (redis_data c) false)
     | None => None
     end)
    (tokenBlacklist st) (users st) (mongo_rejects st).

(** The write of [blacklistToken] reaches Redis: the client is open, its
    commands resolve, and the time to live is positive. *)
Definition write_reaches_redis (st : State) (ttl : Z) : bool :=
  match redisClient st with
  | Some c => isOpen c && negb (redis_rejects c) && (0 <? ttl)
  | None => false
  end.

(** [isTokenBlacklisted] answers from the in-process set: there is no
    client, or it is closed, or its command rejects. *)
Definition lookup_is_local (st : State) : bool :=
  match redisClient st with
  | Some c => negb (isOpen c) || redis_rejects c
  | None => true
  end.

(** Two states hold the same revocations, in the in-process set and in
    Redis; the condition of the client (open, rejecting) may differ. *)
Definition same_stores (a b : State) : Prop :=
  tokenBlacklist a = tokenBlacklist b
  /\ (redis_data <$> redisClient a) = (redis_data <$> redisClient b).

(** The role names the role schema accepts ([models/Role.js], the
    [enum] of [name]). *)
Definition Role_name_enum : list string :=
  ["ADMIN"; "MANAGER"; "RECEPTIONIST"; "HOUSEKEEPING"].

(** The role of the user, when populated, has one of these names: what
    the schema guarantees of a stored role.  On such names the tables of
    rbac.js answer as the finite maps that model them. *)
Definition enum_role (u : User) : Prop :=
  match role u with
  | Some r => In (role_name r) Role_name_enum
  | None => True
  end.

(** A user whose role reference did not populate. *)
Definition roleless : User := mkUser "actor" None ACTIVE None.

(** A housekeeper whose role record stores one permission beyond the
    defaults of the role. *)
Definition housekeeper : User :=
  mkUser "u7" (Some (mkRole "HOUSEKEEPING" ["view_reports"] true)) ACTIVE None.

(** * Properties *)

(** ** Token extraction *)

Lemma startsWith_app (s p : string) :
  Js.startsWith s p = true -> exists rest, s = p +:+ rest.
Proof.
  unfold Js.startsWith. revert s.
  induction p as [|c p IH]; intros s H.
  - exists s. reflexivity.
  - destruct s as [|c' s]; simpl in H; [discriminate|].
    destruct (ascii_dec c c') as [->|]; [|discriminate].
    destruct (IH _ H) as [rest ->]. exists rest. reflexivity.
Qed.

Lemma split_nonempty (sep : ascii) (s : string) : Js.split sep s <> [].
Proof.
  destruct s as [|c s]; simpl; [discriminate|].
  destruct (Ascii.eqb c sep); [discriminate|].
  destruct (Js.split sep s); discriminate.
Qed.

Lemma split_Bearer (rest : string) :
  Js.split " " ("Bearer " +:+ rest) = "Bearer" :: Js.split " " rest.
Proof. reflexivity. Qed.

Lemma split_no_space (t : string) : no_space t = true -> Js.split " " t = [t].
Proof.
  induction t as [|c t IH]; simpl; [reflexivity|].
  intros [Hc Ht]%andb_prop.
  destruct (Ascii.eqb c " "); [discriminate|].
  rewrite (IH Ht). reflexivity.
Qed.

Lemma extractToken_no_bearer (req : Request) :
  has_bearer req = false ->
  Auth.extractToken req =
    if Js.truthy (signedCookies_jwt req) then signedCookies_jwt req
    else if Js.truthy (cookies_jwt req) then cookies_jwt req
    else None.
Proof.
  unfold has_bearer, Auth.extractToken.
  destruct (headers_authorization req) as [h|]; [|reflexivity].
  intros ->. reflexivity.
Qed.

(** C9.  Token extraction follows a strict priority.  A header that
    starts with ['Bearer '] decides alone: the token is the second piece
    of the header split at spaces (always a string, and the text after
    the prefix when that text has no space), whatever the cookies hold.
    Without such a header a present (non-empty) signed cookie is used;
    without that a present plain cookie; otherwise the result is null. *)
Theorem extractToken_priority (req : Request) :
  (forall h, headers_authorization req = Some h ->
     Js.startsWith h "Bearer " = true ->
     Auth.extractToken req = Js.split " " h !! 1%nat
     /\ (exists rest, h = "Bearer " +:+ rest
           /\ Auth.extractToken req = Some (hd "" (Js.split " " rest))
           /\ (no_space rest = true -> Auth.extractToken req = Some rest)))
  /\ (has_bearer req = false -> Js.truthy (signedCookies_jwt req) = true ->
        Auth.extractToken req = signedCookies_jwt req)
  /\ (has_bearer req = false -> Js.truthy (signedCookies_jwt req) = false ->
        Js.truthy (cookies_jwt req) = true ->
        Auth.extractToken req = cookies_jwt req)
  /\ (has_bearer req = false -> Js.truthy (signedCookies_jwt req) = false ->
        Js.truthy (cookies_jwt req) = false ->
        Auth.extractToken req = None).
Proof.
  repeat split.
  - unfold Auth.extractToken. rewrite H, H0. reflexivity.
  - destruct (startsWith_app _ _ H0) as [rest ->].
    exists rest. split; [reflexivity|].
    assert (Hx : Auth.extractToken req = Some (hd "" (Js.split " " rest))).
    { unfold Auth.extractToken. rewrite H, H0, split_Bearer. simpl.
      pose proof (split_nonempty " " rest) as Hne.
      destruct (Js.split " " rest); [contradiction|reflexivity]. }
    split; [exact Hx|].
    intros Hns. rewrite Hx, (split_no_space _ Hns). reflexivity.
  - intros Hb Hs. rewrite (extractToken_no_bearer _ Hb), Hs. reflexivity.
  - intros Hb Hs Hc. rewrite (extractToken_no_bearer _ Hb), Hs, Hc. reflexivity.
  - intros Hb Hs Hc. rewrite (extractToken_no_bearer _ Hb), Hs, Hc. reflexivity.
Qed.

(** The priority on concrete requests: header over both cookies, signed
    cookie over plain cookie, plain cookie alone, nothing at all. *)
Lemma extractToken_priority_witness :
  Auth.extractToken (request_with (Some "Bearer aaa.bbb.ccc") (Some "signed") (Some "plain"))
    = Some "aaa.bbb.ccc"
  /\ Auth.extractToken (request_with (Some "Basic dXNlcg==") (Some "signed") (Some "plain"))
    = Some "signed"
  /\ Auth.extractToken (request_with None None (Some "plain")) = Some "plain"
  /\ Auth.extractToken (request_with None (Some "") None) = None.
Proof.
  split; [|split; [|split]].
  - destruct (extractToken_priority
                (request_with (Some "Bearer aaa.bbb.ccc") (Some "signed") (Some "plain")))
      as [Hh _].
    destruct (Hh "Bearer aaa.bbb.ccc" eq_refl eq_refl) as [_ [rest [Hr [_ Hns]]]].
    assert (rest = "aaa.bbb.ccc") as -> by (vm_compute in Hr; congruence).
    apply Hns. reflexivity.
  - destruct (extractToken_priority
                (request_with (Some "Basic dXNlcg==") (Some "signed") (Some "plain")))
      as [_ [Hs _]].
    apply Hs; reflexivity.
  - destruct (extractToken_priority (request_with None None (Some "plain")))
      as [_ [_ [Hc _]]].
    apply Hc; reflexivity.
  - destruct (extractToken_priority (request_with None (Some "") None))
      as [_ [_ [_ Hn]]].
    apply Hn; reflexivity.
Defined.

Lemma truthy_Some (s : string) : Js.truthy (Some s) = true <-> s <> "".
Proof.
  simpl. destruct (String.eqb_spec s ""); simpl; split; congruence.
Qed.

(** ** Revocation lookup *)

Lemma has_true (s : gset string) (x : string) : Auth.has s x = true <-> x ∈ s.
Proof. unfold Auth.has. apply bool_decide_eq_true. Qed.

Lemma isTokenBlacklisted_fallback (st : State) (jti : string) :
  lookup_fails st = true ->
  Auth.isTokenBlacklisted st jti = Auth.has (tokenBlacklist st) jti.
Proof.
  unfold lookup_fails, Auth.isTokenBlacklisted, redis_get.
  destruct (redisClient st) as [c|]; [|discriminate].
  destruct (isOpen c); [|reflexivity]. simpl. intros ->. reflexivity.
Qed.

(** What [protect] does once the token is extracted and decoded. *)
Lemma protect_decoded (lib : JwtLib) (env : ProcessEnv) (st : State) (now : Z)
    (req : Request) (token : string) (d : Claims) :
  Auth.extractToken req = Some token ->
  Js.truthy (Some token) = true ->
  jwt_verify lib token (JWT_SECRET env) now = JwtOk d ->
  Auth.protect lib env st now req =
    if Auth.revoked st d then NextErr Auth.err_revoked
    else Auth.check_user st now token d.
Proof.
  intros Hx Ht Hv. unfold Auth.protect. rewrite Hx, Ht. simpl. rewrite Hv.
  reflexivity.
Qed.

(** C1 as stated fails: with Redis open but rejecting, an identifier
    that the Revocation Store holds as revoked is reported as not
    revoked, and [protect] admits the credential. *)
Lemma revocation_lookup_fails_open :
  lookup_fails st_outage = true
  /\ redis_data outage_client !! Auth.blacklist_key "jti-1" = Some "true"
  /\ Auth.isTokenBlacklisted st_outage "jti-1" = false
  /\ Auth.protect demoJwt demoEnv st_outage demo_now bearer_request
     = Next (Auth.mkAuthenticated alice (mkTokenInfo demo_token demo_claims) false).
Proof. vm_compute. repeat split. Qed.

(** C1, amended.  When the Revocation Store cannot be consulted (the
    client is closed, or the lookup rejects), [isTokenBlacklisted]
    answers from the in-process blacklist: the
    identifier is reported revoked exactly when the local set holds it,
    and [protect] rejects a decoded credential with the revoked error in
    exactly that case, going on to the identity checks otherwise. *)
Theorem revocation_lookup_falls_back (st : State) (jti : string) :
  lookup_fails st = true ->
  (Auth.isTokenBlacklisted st jti = true <-> jti ∈ tokenBlacklist st)
  /\ (forall lib env now req token d,
        Auth.extractToken req = Some token ->
        Js.truthy (Some token) = true ->
        jwt_verify lib token (JWT_SECRET env) now = JwtOk d ->
        claim_jti d = Some jti ->
        Js.truthy (Some jti) = true ->
        (jti ∈ tokenBlacklist st ->
           Auth.protect lib env st now req = NextErr Auth.err_revoked)
        /\ (jti ∉ tokenBlacklist st ->
           Auth.protect lib env st now req = Auth.check_user st now token d)).
Proof.
  intros Hf. pose proof (isTokenBlacklisted_fallback st jti Hf) as Hb.
  split.
  - rewrite Hb. apply has_true.
  - intros lib env now req token d Hx Ht Hv Hj Hjt.
    rewrite (protect_decoded _ _ _ _ _ _ _ Hx Ht Hv).
    unfold Auth.revoked. rewrite Hj, Hjt, Hb. simpl.
    split; intros Hin.
    + apply has_true in Hin. rewrite Hin. reflexivity.
    + destruct (Auth.has (tokenBlacklist st) jti) eqn:E; [|reflexivity].
      apply has_true in E. contradiction.
Qed.

(** During the outage of [st_outage] the answer is the local one. *)
Lemma revocation_lookup_falls_back_witness :
  lookup_fails st_outage = true
  /\ (Auth.isTokenBlacklisted st_outage "jti-1" = true
      <-> "jti-1" ∈ tokenBlacklist st_outage).
Proof.
  split; [reflexivity|].
  apply (revocation_lookup_falls_back st_outage "jti-1"). reflexivity.
Defined.

(** ** The checks of [protect] *)

Lemma AccountStatus_eqb_eq (a b : AccountStatus) :
  AccountStatus_eqb a b = true <-> a = b.
Proof. destruct a, b; simpl; split; congruence. Qed.

(** Once the first six checks pass only the password check is left. *)
Lemma protect_password_check (lib : JwtLib) (env : ProcessEnv) (st : State)
    (now : Z) (req : Request) (token : string) (c : Claims) (u : User) :
  reaches_password_check lib env st now req token c u ->
  Auth.protect lib env st now req =
    if UserModel.changedPasswordAfter (passwordChangedAt u) (claim_iat c)
    then NextErr Auth.err_stale
    else Next (Auth.mkAuthenticated u (mkTokenInfo token c) (Auth.near_expiry now c)).
Proof.
  intros (Hx & Ht & Hv & Hr & Hu & Ha & Hrole).
  rewrite (protect_decoded _ _ _ _ _ _ _ Hx Ht Hv), Hr.
  unfold Auth.check_user. rewrite Hu, Ha, Hrole. reflexivity.
Qed.

Lemma protect_errors_distinct (s : AccountStatus) :
  NoDup [Auth.err_revoked; Auth.err_not_found; Auth.err_account_disabled s;
         Auth.err_role_disabled; Auth.err_stale].
Proof.
  repeat (apply NoDup_cons; split);
    [..|apply NoDup_nil; exact I];
    rewrite ?list_elem_of_In; simpl; destruct s; vm_compute;
    intuition discriminate.
Qed.

(** C3.  For a credential that passed the signature and expiry checks,
    [protect] checks revocation, then that the identity exists, then
    that the account is ACTIVE, then that the role is active, then that
    the credential was not issued before the last password change; the
    first check that fails decides the error, and the five errors are
    pairwise distinct. *)
Theorem protect_check_order (lib : JwtLib) (env : ProcessEnv) (st : State)
    (now : Z) (req : Request) (token : string) (d : Claims) :
  Auth.extractToken req = Some token ->
  Js.truthy (Some token) = true ->
  jwt_verify lib token (JWT_SECRET env) now = JwtOk d ->
  (Auth.revoked st d = true ->
     Auth.protect lib env st now req = NextErr Auth.err_revoked)
  /\ (Auth.revoked st d = false ->
      (User_findById st (claim_id d) = Resolves None ->
         Auth.protect lib env st now req = NextErr Auth.err_not_found)
      /\ (forall u, User_findById st (claim_id d) = Resolves (Some u) ->
          (accountStatus u <> ACTIVE ->
             Auth.protect lib env st now req
             = NextErr (Auth.err_account_disabled (accountStatus u)))
          /\ (accountStatus u = ACTIVE -> Auth.role_active u = false ->
             Auth.protect lib env st now req = NextErr Auth.err_role_disabled)
          /\ (accountStatus u = ACTIVE -> Auth.role_active u = true ->
              UserModel.changedPasswordAfter (passwordChangedAt u) (claim_iat d) = true ->
             Auth.protect lib env st now req = NextErr Auth.err_stale)
          /\ (accountStatus u = ACTIVE -> Auth.role_active u = true ->
              UserModel.changedPasswordAfter (passwordChangedAt u) (claim_iat d) = false ->
             Auth.protect lib env st now req
             = Next (Auth.mkAuthenticated u (mkTokenInfo token d)
                       (Auth.near_expiry now d)))))
  /\ (forall s, NoDup [Auth.err_revoked; Auth.err_not_found;
                       Auth.err_account_disabled s; Auth.err_role_disabled;
                       Auth.err_stale]).
Proof.
  intros Hx Ht Hv.
  pose proof (protect_decoded lib env st now req token d Hx Ht Hv) as Hp.
  split; [|split].
  - intros Hr. rewrite Hp, Hr. reflexivity.
  - intros Hr. rewrite Hr in Hp. unfold Auth.check_user in Hp. split.
    + intros Hu. rewrite Hp, Hu. reflexivity.
    + intros u Hu. rewrite Hu in Hp. repeat split.
      * intros Ha. rewrite Hp.
        destruct (AccountStatus_eqb (accountStatus u) ACTIVE) eqn:E; [|reflexivity].
        apply AccountStatus_eqb_eq in E. contradiction.
      * intros Ha Hrole. rewrite Hp, Ha, Hrole. reflexivity.
      * intros Ha Hrole Hc. rewrite Hp, Ha, Hrole, Hc. reflexivity.
      * intros Ha Hrole Hc. rewrite Hp, Ha, Hrole, Hc. reflexivity.
  - apply protect_errors_distinct.
Qed.

(** The order on two deployments: a revoked token of a live identity is
    answered with the revoked error, and a live token of an identity
    whose role was deactivated with the role error. *)
Lemma protect_check_order_witness :
  Auth.protect demoJwt demoEnv st_logged_out demo_now bearer_request
    = NextErr Auth.err_revoked
  /\ Auth.protect demoJwt demoEnv st_role_off demo_now bearer_request
    = NextErr Auth.err_role_disabled.
Proof.
  split.
  - destruct (protect_check_order demoJwt demoEnv st_logged_out demo_now
                bearer_request demo_token demo_claims eq_refl eq_refl eq_refl)
      as [Hrev _].
    apply Hrev. reflexivity.
  - destruct (protect_check_order demoJwt demoEnv st_role_off demo_now
                bearer_request demo_token demo_claims eq_refl eq_refl eq_refl)
      as [_ [Hrest _]].
    destruct (Hrest eq_refl) as [_ Hu].
    destruct (Hu (mkUser "u1" (Some (mkRole "RECEPTIONIST" [] false)) ACTIVE None)
                eq_refl) as [_ [Hrole _]].
    apply Hrole; reflexivity.
Defined.

(** ** Password changes *)

Lemma seconds_of_mono (a b : Z) :
  a <= b -> UserModel.seconds_of a <= UserModel.seconds_of b.
Proof.
  unfold UserModel.seconds_of. intros H.
  apply Z.quot_le_mono; lia.
Qed.

Lemma seconds_of_nonneg (t : Z) : 0 <= t -> UserModel.seconds_of t = t / 1000.
Proof.
  unfold UserModel.seconds_of. intros H. apply Z.quot_div_nonneg; lia.
Qed.

Lemma pre_save_sets_passwordChangedAt (hash : string -> Z -> option string)
    (now : Z) (d d' : UserModel.Document) :
  UserModel.doc_isNew d = false ->
  UserModel.doc_passwordModified d = true ->
  UserModel.pre_save hash now d = Some d' ->
  UserModel.doc_passwordChangedAt d' = Some (now - 1000).
Proof.
  unfold UserModel.pre_save. intros -> ->. simpl.
  destruct (hash _ _); [|discriminate].
  intros [= <-]. reflexivity.
Qed.

(** C4.  Saving an existing identity with a modified password records
    the change one second before the save time [now].  From then on a
    credential whose [iat] is strictly before the recorded change, in
    whole seconds, is rejected by [protect] with the stale error, while
    a credential issued at or after the save (its [iat] is the issue
    time in whole seconds) still passes. *)
Theorem password_change_invalidates_older_credentials
    (hash : string -> Z -> option string) (now : Z) (d d' : UserModel.Document) :
  0 <= now ->
  UserModel.doc_isNew d = false ->
  UserModel.doc_passwordModified d = true ->
  UserModel.pre_save hash now d = Some d' ->
  UserModel.doc_passwordChangedAt d' = Some (now - 1000)
  /\ (forall iat,
        UserModel.changedPasswordAfter (UserModel.doc_passwordChangedAt d') iat = true
        <-> iat < UserModel.seconds_of (now - 1000))
  /\ (forall t, now <= t ->
        UserModel.changedPasswordAfter (UserModel.doc_passwordChangedAt d') (t / 1000)
        = false)
  /\ (forall lib env st later req token c u,
        reaches_password_check lib env st later req token c u ->
        passwordChangedAt u = UserModel.doc_passwordChangedAt d' ->
        (claim_iat c < UserModel.seconds_of (now - 1000) ->
           Auth.protect lib env st later req = NextErr Auth.err_stale)
        /\ (forall t, now <= t -> claim_iat c = t / 1000 ->
           Auth.protect lib env st later req
           = Next (Auth.mkAuthenticated u (mkTokenInfo token c)
                     (Auth.near_expiry later c)))).
Proof.
  intros Hnow Hnew Hmod Hsave.
  pose proof (pre_save_sets_passwordChangedAt hash now d d' Hnew Hmod Hsave) as Hc.
  assert (Hiff : forall iat,
             UserModel.changedPasswordAfter (UserModel.doc_passwordChangedAt d') iat = true
             <-> iat < UserModel.seconds_of (now - 1000)).
  { intros iat. rewrite Hc. simpl. apply Z.ltb_lt. }
  assert (Hafter : forall t, now <= t ->
             UserModel.changedPasswordAfter (UserModel.doc_passwordChangedAt d') (t / 1000)
             = false).
  { intros t Ht. rewrite Hc. simpl. apply Z.ltb_ge.
    rewrite <- (seconds_of_nonneg t) by lia.
    apply seconds_of_mono. lia. }
  split; [exact Hc|]. split; [exact Hiff|]. split; [exact Hafter|].
  intros lib env st later req token c u Hreach Hu.
  rewrite (protect_password_check _ _ _ _ _ _ _ _ Hreach), Hu.
  split.
  - intros Hlt. apply Hiff in Hlt. rewrite Hlt. reflexivity.
  - intros t Ht ->. rewrite (Hafter t Ht). reflexivity.
Qed.

(** The token of the small deployment, issued 500 seconds before the
    password change, is stale afterwards. *)
Lemma password_change_invalidates_older_credentials_witness :
  UserModel.pre_save demo_hash change_time changing_document
    = Some (UserModel.mkDocument "$2a$12$correct horse battery"
              (Some (change_time - 1000)) false true)
  /\ Auth.protect demoJwt demoEnv st_changed after_change bearer_request
     = NextErr Auth.err_stale.
Proof.
  split; [reflexivity|].
  destruct (password_change_invalidates_older_credentials demo_hash change_time
              changing_document
              (UserModel.mkDocument "$2a$12$correct horse battery"
                 (Some (change_time - 1000)) false true))
    as (_ & _ & _ & Hprotect);
    [unfold change_time; lia | reflexivity | reflexivity | reflexivity |].
  destruct (Hprotect demoJwt demoEnv st_changed after_change bearer_request
              demo_token demo_claims
              (mkUser "u1" (Some receptionist) ACTIVE (Some (change_time - 1000))))
    as [Hstale _].
  - repeat split; reflexivity.
  - reflexivity.
  - apply Hstale. vm_compute. reflexivity.
Defined.

(** A credential issued within the second before the recorded change is
    not invalidated: the comparison is in whole seconds and the recorded
    time lies one second before the save. *)
Lemma credential_issued_just_before_change_survives :
  UserModel.changedPasswordAfter (Some (change_time - 1000)) ((change_time - 500) / 1000)
  = false.
Proof. reflexivity. Qed.

(** ** Issue, then verify *)

Lemma revoked_false (st : State) (c : Claims) (jti : string) :
  claim_jti c = Some jti ->
  Auth.isTokenBlacklisted st jti = false ->
  Auth.revoked st c = false.
Proof.
  intros Hj Hb. unfold Auth.revoked. rewrite Hj, Hb. apply andb_false_r.
Qed.

(** *** The reference library meets the contract *)

Lemma char_bit_bit_char (b : bool) : JwtCodec.char_bit (JwtCodec.bit_char b) = Some b.
Proof. destruct b; reflexivity. Qed.

Lemma decode_encode_text (s : string) :
  JwtCodec.decode_text (JwtCodec.encode_text s) = Some s.
Proof.
  induction s as [|[b0 b1 b2 b3 b4 b5 b6 b7] s IH]; [reflexivity|].
  cbn [JwtCodec.encode_text JwtCodec.decode_text].
  rewrite !char_bit_bit_char, IH. reflexivity.
Qed.

Lemma decode_encode_pos (p : positive) :
  JwtCodec.decode_pos (JwtCodec.encode_pos p) = Some p.
Proof.
  induction p as [q IH | q IH |]; simpl; [rewrite IH .. |]; reflexivity.
Qed.

Lemma decode_encode_Z (z : Z) : JwtCodec.decode_Z (JwtCodec.encode_Z z) = Some z.
Proof.
  destruct z as [|p|p]; simpl; [reflexivity | |]; rewrite decode_encode_pos; reflexivity.
Qed.

Lemma lacks_dot_encode_text (s : string) : lacks "." (JwtCodec.encode_text s) = true.
Proof.
  induction s as [|[b0 b1 b2 b3 b4 b5 b6 b7] s IH]; [reflexivity|].
  cbn [JwtCodec.encode_text lacks]. rewrite IH.
  destruct b0, b1, b2, b3, b4, b5, b6, b7; reflexivity.
Qed.

Lemma lacks_dot_encode_pos (p : positive) : lacks "." (JwtCodec.encode_pos p) = true.
Proof. induction p as [q IH | q IH |]; simpl; [exact IH .. | reflexivity]. Qed.

Lemma lacks_dot_encode_Z (z : Z) : lacks "." (JwtCodec.encode_Z z) = true.
Proof. destruct z; simpl; [reflexivity | |]; apply lacks_dot_encode_pos. Qed.

Lemma split_lacks (sep : ascii) (text : string) :
  lacks sep text = true -> Js.split sep text = [text].
Proof.
  induction text as [|c text IH]; simpl; [reflexivity|].
  intros [Hc Ht]%andb_prop. apply negb_true_iff in Hc. rewrite Hc, (IH Ht).
  reflexivity.
Qed.

Lemma split_field (text rest : string) :
  lacks "." text = true ->
  Js.split "." (JwtCodec.field text rest) = text :: Js.split "." rest.
Proof.
  unfold JwtCodec.field. induction text as [|c text IH]; intros H.
  - reflexivity.
  - simpl in H. apply andb_prop in H as [Hc Ht]. apply negb_true_iff in Hc.
    change (String c text +:+ String "." rest)
      with (String c (text +:+ String "." rest)).
    cbn [Js.split]. rewrite Hc, (IH Ht). reflexivity.
Qed.

Lemma field_nonempty (text rest : string) : JwtCodec.field text rest <> "".
Proof. unfold JwtCodec.field. destruct text; discriminate. Qed.

Lemma JwtCodec_honest : jwt_honest JwtCodec.lib JwtCodec.timespan.
Proof.
  split.
  - intros p secret opts now. apply field_nonempty.
  - intros p secret opts now later Hlive.
    cbn [jwt_verify jwt_sign JwtCodec.lib]. unfold JwtCodec.verify, JwtCodec.sign.
    rewrite !split_field, split_lacks
      by first [apply lacks_dot_encode_text | apply lacks_dot_encode_Z].
    rewrite !decode_encode_text, !decode_encode_Z, String.eqb_refl.
    destruct (Z.leb_spec (now / 1000 + JwtCodec.timespan (expiresIn opts)) (later / 1000));
      [lia | reflexivity].
Qed.

(** C5.  With a [jsonwebtoken] that keeps its contract, the access token
    [signToken] returns for a subject and a role verifies: presented
    before its expiry, its identifier not blacklisted, the identity
    stored unchanged, ACTIVE, with an active role and no password change
    after the issue, [protect] succeeds and attaches that identity and a
    decoded token with the issued subject id, role and identifier. *)
Theorem verify_issued_credential (lib : JwtLib) (lifetime : string -> Z)
    (env : ProcessEnv) (st : State) (issue_time now : Z)
    (uuid userId roleName : string) (req : Request) (u : User) :
  jwt_honest lib lifetime ->
  let issued := Auth.signToken lib env issue_time uuid userId roleName in
  Auth.extractToken req = Some (fst issued) ->
  now / 1000 < issue_time / 1000 + lifetime (Auth.env_or (JWT_EXPIRES_IN env) "15m") ->
  Auth.isTokenBlacklisted st (snd issued) = false ->
  User_findById st userId = Resolves (Some u) ->
  _id u = userId ->
  accountStatus u = ACTIVE ->
  Auth.role_active u = true ->
  UserModel.changedPasswordAfter (passwordChangedAt u) (issue_time / 1000) = false ->
  exists a,
    Auth.protect lib env st now req = Next a
    /\ Auth.auth_user a = u
    /\ _id (Auth.auth_user a) = userId
    /\ raw (Auth.auth_token a) = fst issued
    /\ claim_id (decoded (Auth.auth_token a)) = userId
    /\ claim_role (decoded (Auth.auth_token a)) = roleName
    /\ claim_jti (decoded (Auth.auth_token a)) = Some (snd issued).
Proof.
  intros [Hnonempty Hround] issued Hx Hlive Hb Hu Huid Ha Hra Hc.
  unfold Auth.signToken in issued. cbn [fst snd] in *. subst issued. cbn [fst snd] in *.
  set (token := jwt_sign lib (mkPayload userId roleName uuid) (JWT_SECRET env) _ issue_time)
    in *.
  set (c := mkClaims userId roleName (Some uuid) (issue_time / 1000)
              (issue_time / 1000
               + lifetime (Auth.env_or (JWT_EXPIRES_IN env) "15m"))).
  assert (Hv : jwt_verify lib token (JWT_SECRET env) now = JwtOk c).
  { subst token c. apply (Hround (mkPayload userId roleName uuid)). exact Hlive. }
  assert (Hreach : reaches_password_check lib env st now req token c u).
  { repeat split; try assumption.
    - apply truthy_Some. apply Hnonempty.
    - exact (revoked_false st c uuid eq_refl Hb). }
  exists (Auth.mkAuthenticated u (mkTokenInfo token c) (Auth.near_expiry now c)).
  rewrite (protect_password_check _ _ _ _ _ _ _ _ Hreach).
  cbn [claim_iat c]. subst c. cbn [claim_iat]. rewrite Hc.
  simpl. repeat split; assumption.
Qed.

(** Issuing for the receptionist of the small deployment with the
    reference library and sending the token back as a Bearer header ten
    seconds later. *)
Lemma verify_issued_credential_witness :
  exists a,
    Auth.protect JwtCodec.lib demoEnv st_local demo_now
      (request_with
         (Some ("Bearer "
                +:+ fst (Auth.signToken JwtCodec.lib demoEnv 1700000000000 "jti-1" "u1"
                           "RECEPTIONIST")))
         None None)
    = Next a
    /\ Auth.auth_user a = alice
    /\ _id (Auth.auth_user a) = "u1"
    /\ raw (Auth.auth_token a)
       = fst (Auth.signToken JwtCodec.lib demoEnv 1700000000000 "jti-1" "u1" "RECEPTIONIST")
    /\ claim_id (decoded (Auth.auth_token a)) = "u1"
    /\ claim_role (decoded (Auth.auth_token a)) = "RECEPTIONIST"
    /\ claim_jti (decoded (Auth.auth_token a)) = Some "jti-1".
Proof.
  apply (verify_issued_credential JwtCodec.lib JwtCodec.timespan demoEnv st_local
           1700000000000 demo_now "jti-1" "u1" "RECEPTIONIST" _ alice).
  - exact JwtCodec_honest.
  - vm_compute. reflexivity.
  - vm_compute. reflexivity.
  - reflexivity.
  - reflexivity.
  - reflexivity.
  - reflexivity.
  - reflexivity.
  - reflexivity.
Defined.

(** ** Optional authentication *)

(** [optionalAuth] never hands an error to [next]: it always calls
    [next()], and with [req.user] null when there is no token, when the
    token does not verify, when the lookup of the user rejects or finds
    nobody, and when the account is not ACTIVE. *)
Lemma optionalAuth_never_rejects (lib : JwtLib) (env : ProcessEnv) (st : State)
    (now : Z) (req : Request) :
  (exists user, Auth.optionalAuth lib env st now req = Next user)
  /\ (Js.truthy (Auth.extractToken req) = false ->
      Auth.optionalAuth lib env st now req = Next None)
  /\ (forall token e,
        Auth.extractToken req = Some token ->
        jwt_verify lib token (JWT_SECRET env) now = JwtThrows e ->
        Auth.optionalAuth lib env st now req = Next None)
  /\ (forall token d,
        Auth.extractToken req = Some token ->
        jwt_verify lib token (JWT_SECRET env) now = JwtOk d ->
        User_findById st (claim_id d) = Rejects
        \/ User_findById st (claim_id d) = Resolves None ->
        Auth.optionalAuth lib env st now req = Next None)
  /\ (forall token d u,
        Auth.extractToken req = Some token ->
        jwt_verify lib token (JWT_SECRET env) now = JwtOk d ->
        User_findById st (claim_id d) = Resolves (Some u) ->
        accountStatus u <> ACTIVE ->
        Auth.optionalAuth lib env st now req = Next None).
Proof.
  unfold Auth.optionalAuth.
  destruct (Js.truthy (Auth.extractToken req)) eqn:Ht; cbn [negb].
  - destruct (Auth.extractToken req) as [t|]; [|discriminate].
    split; [|split; [discriminate|split; [|split]]].
    + destruct (jwt_verify lib t (JWT_SECRET env) now); [|eauto].
      destruct (User_findById st (claim_id c)) as [[user|]|]; eauto.
      destruct (AccountStatus_eqb (accountStatus user) ACTIVE); eauto.
    + intros token e [= <-] ->. reflexivity.
    + intros token d [= <-] -> [-> | ->]; reflexivity.
    + intros token d u [= <-] -> -> Hne.
      destruct (AccountStatus_eqb (accountStatus u) ACTIVE) eqn:Ha; [|reflexivity].
      apply AccountStatus_eqb_eq in Ha. contradiction.
  - split; [eauto|]. split; [reflexivity|].
    destruct (Auth.extractToken req); repeat split; reflexivity.
Qed.

(** Whatever [protect] admits, [optionalAuth] attaches. *)
Lemma protect_success_optionalAuth (lib : JwtLib) (env : ProcessEnv) (st : State)
    (now : Z) (req : Request) (a : Auth.Authenticated) :
  Auth.protect lib env st now req = Next a ->
  Auth.optionalAuth lib env st now req = Next (Some (Auth.auth_user a)).
Proof.
  unfold Auth.protect, Auth.optionalAuth.
  destruct (negb (Js.truthy (Auth.extractToken req))); [discriminate|].
  destruct (Auth.extractToken req) as [t|]; [|discriminate].
  destruct (jwt_verify lib t (JWT_SECRET env) now) as [d|[]]; try discriminate.
  destruct (Auth.revoked st d); [discriminate|].
  unfold Auth.check_user.
  destruct (User_findById st (claim_id d)) as [[user|]|]; try discriminate.
  destruct (AccountStatus_eqb (accountStatus user) ACTIVE); [|discriminate].
  simpl.
  destruct (negb (Auth.role_active user)); [discriminate|].
  destruct (UserModel.changedPasswordAfter _ _); [discriminate|].
  intros [= <-]. reflexivity.
Qed.

(** C2.  The code departs from the claim: on a credential that was
    revoked by [logout], on one whose identity lost its active role, and
    on one issued before a password change, [protect] rejects while
    [optionalAuth] attaches the user. *)
Theorem optionalAuth_skips_checks_of_protect :
  (Auth.protect demoJwt demoEnv st_logged_out demo_now bearer_request
     = NextErr Auth.err_revoked
   /\ Auth.optionalAuth demoJwt demoEnv st_logged_out demo_now bearer_request
     = Next (Some alice))
  /\ (Auth.protect demoJwt demoEnv st_role_off demo_now bearer_request
        = NextErr Auth.err_role_disabled
      /\ Auth.optionalAuth demoJwt demoEnv st_role_off demo_now bearer_request
        = Next (Some (mkUser "u1" (Some (mkRole "RECEPTIONIST" [] false)) ACTIVE None)))
  /\ (Auth.protect demoJwt demoEnv st_changed after_change bearer_request
        = NextErr Auth.err_stale
      /\ Auth.optionalAuth demoJwt demoEnv st_changed after_change bearer_request
        = Next (Some (mkUser "u1" (Some receptionist) ACTIVE (Some (change_time - 1000))))).
Proof. vm_compute. repeat split. Qed.

(** ** Privilege escalation *)

(** [preventPrivilegeEscalation] for an authenticated actor whose
    request names a role. *)
Lemma preventPrivilegeEscalation_named (req : Request) (u : User) (requested : string) :
  req_user req = Some u ->
  Js.or_else (body_roleName req) (body_role req) = Some requested ->
  requested <> "" ->
  Rbac.preventPrivilegeEscalation req =
    match Rbac.ROLE_HIERARCHY !! Js.toUpperCase requested with
    | None => NextErr Rbac.err_invalid_role
    | Some requestedLevel =>
        if Rbac.js_ge requestedLevel (Rbac.userLevel u)
        then NextErr Rbac.err_escalation else Next tt
    end.
Proof.
  intros Hu Hr Hne. unfold Rbac.preventPrivilegeEscalation. rewrite Hu, Hr.
  simpl. destruct (String.eqb_spec requested ""); [contradiction|]. reflexivity.
Qed.

(** C6.  For an actor whose role has authority level [actorLevel] and a
    request naming a role of level [requestedLevel],
    [preventPrivilegeEscalation] answers with the 403 escalation error
    exactly when [requestedLevel >= actorLevel] and admits exactly when
    [requestedLevel < actorLevel].  MANAGER naming MANAGER and ADMIN
    naming ADMIN are denied; ADMIN naming MANAGER is admitted. *)
Theorem preventPrivilegeEscalation_strict (req : Request) (u : User)
    (requested : string) (actorLevel requestedLevel : Z) :
  req_user req = Some u ->
  Js.or_else (body_roleName req) (body_role req) = Some requested ->
  requested <> "" ->
  Rbac.userLevel u = Some actorLevel ->
  Rbac.ROLE_HIERARCHY !! Js.toUpperCase requested = Some requestedLevel ->
  (Rbac.preventPrivilegeEscalation req = NextErr Rbac.err_escalation
     <-> actorLevel <= requestedLevel)
  /\ (Rbac.preventPrivilegeEscalation req = Next tt
     <-> requestedLevel < actorLevel)
  /\ statusCode Rbac.err_escalation = 403
  /\ Rbac.preventPrivilegeEscalation (assign_request "MANAGER" "MANAGER")
     = NextErr Rbac.err_escalation
  /\ Rbac.preventPrivilegeEscalation (assign_request "ADMIN" "ADMIN")
     = NextErr Rbac.err_escalation
  /\ Rbac.preventPrivilegeEscalation (assign_request "ADMIN" "MANAGER") = Next tt.
Proof.
  intros Hu Hr Hne Hal Hrl.
  rewrite (preventPrivilegeEscalation_named req u requested Hu Hr Hne), Hrl, Hal.
  simpl.
  repeat split; try reflexivity;
    destruct (Z.leb_spec actorLevel requestedLevel); try lia; try discriminate;
    reflexivity.
Qed.

(** A receptionist naming the manager role, in lower case, is denied;
    a manager naming the receptionist role is admitted. *)
Lemma preventPrivilegeEscalation_strict_witness :
  Rbac.preventPrivilegeEscalation (assign_request "RECEPTIONIST" "manager")
    = NextErr Rbac.err_escalation
  /\ Rbac.preventPrivilegeEscalation (assign_request "MANAGER" "receptionist")
    = Next tt.
Proof.
  split.
  - destruct (preventPrivilegeEscalation_strict
                (assign_request "RECEPTIONIST" "manager") (acting "RECEPTIONIST")
                "manager" 1 2 eq_refl eq_refl ltac:(discriminate) eq_refl eq_refl)
      as [Hdeny _].
    apply Hdeny. lia.
  - destruct (preventPrivilegeEscalation_strict
                (assign_request "MANAGER" "receptionist") (acting "MANAGER")
                "receptionist" 2 1 eq_refl eq_refl ltac:(discriminate) eq_refl eq_refl)
      as [_ [Hadmit _]].
    apply Hadmit. lia.
Defined.




(** ** Permission resolution *)

Lemma rbac_has_true (s : gset string) (x : string) : Rbac.has s x = true <-> x ∈ s.
Proof. unfold Rbac.has. apply bool_decide_eq_true. Qed.

Lemma allPermissions_elem (u : User) (p : string) :
  p ∈ Rbac.allPermissions u
  <-> p ∈ Rbac.defaultPermissions u \/ p ∈ Rbac.dbPermissions u.
Proof.
  unfold Rbac.allPermissions. rewrite elem_of_list_to_set, elem_of_app. reflexivity.
Qed.

Lemma defaultPermissions_of_name (u u' : User) :
  Rbac.userRoleName u' = Rbac.userRoleName u ->
  Rbac.defaultPermissions u' = Rbac.defaultPermissions u.
Proof. unfold Rbac.defaultPermissions. intros ->. reflexivity. Qed.

(** C7.  For a user whose role record has a name of the static table,
    the permission set the authorization checks resolve is the union of
    the table's default permissions for that name and the permissions
    stored on the role record.  Every default permission is in it
    whatever is stored, for any record with that role name, and
    [requirePermission] admits exactly the requests all of whose
    required permissions lie in that union, attaching it, as
    [requireAnyPermission] does. *)
Theorem allPermissions_is_union (u : User) (r : Role) (defaults : list string) :
  role u = Some r ->
  Rbac.DEFAULT_ROLE_PERMISSIONS !! role_name r = Some defaults ->
  Rbac.allPermissions u = list_to_set defaults ∪ list_to_set (role_permissions r)
  /\ (forall p, p ∈ Rbac.allPermissions u <-> p ∈ defaults \/ p ∈ role_permissions r)
  /\ (forall u' r' p, role u' = Some r' -> role_name r' = role_name r ->
        p ∈ defaults -> p ∈ Rbac.allPermissions u')
  /\ (forall req required, req_user req = Some u ->
        (Rbac.requirePermission required req
         = Next (list_to_set defaults ∪ list_to_set (role_permissions r))
         <-> forall p, p ∈ required -> p ∈ defaults \/ p ∈ role_permissions r)
        /\ (forall s, Rbac.requirePermission required req = Next s ->
              s = list_to_set defaults ∪ list_to_set (role_permissions r))
        /\ (forall s, Rbac.requireAnyPermission required req = Next s ->
              s = list_to_set defaults ∪ list_to_set (role_permissions r))).
Proof.
  intros Hrole Htable.
  assert (Hdef : forall u' r', role u' = Some r' -> role_name r' = role_name r ->
                   Rbac.defaultPermissions u' = defaults).
  { intros u' r' Hr' Hname. unfold Rbac.defaultPermissions, Rbac.userRoleName.
    rewrite Hr'. simpl. rewrite Hname, Htable. reflexivity. }
  assert (Hdb : Rbac.dbPermissions u = role_permissions r).
  { unfold Rbac.dbPermissions. rewrite Hrole. reflexivity. }
  assert (Hall : Rbac.allPermissions u
                 = list_to_set defaults ∪ list_to_set (role_permissions r)).
  { unfold Rbac.allPermissions. rewrite (Hdef u r Hrole eq_refl), Hdb.
    apply list_to_set_app_L. }
  assert (Helem : forall p, p ∈ Rbac.allPermissions u
                            <-> p ∈ defaults \/ p ∈ role_permissions r).
  { intros p. rewrite allPermissions_elem, (Hdef u r Hrole eq_refl), Hdb. reflexivity. }
  split; [exact Hall|]. split; [exact Helem|]. split.
  - intros u' r' p Hr' Hname Hp. apply allPermissions_elem. left.
    rewrite (Hdef u' r' Hr' Hname). exact Hp.
  - intros req required Hu.
    unfold Rbac.requirePermission, Rbac.requireAnyPermission. rewrite Hu. simpl.
    rewrite <- Hall. split; [|split].
    + destruct (forallb (Rbac.has (Rbac.allPermissions u)) required) eqn:E.
      * split; [|reflexivity]. intros _ p Hp.
        rewrite forallb_forall in E. apply Helem, rbac_has_true, E.
        apply list_elem_of_In. exact Hp.
      * split; [discriminate|]. intros Hreq. exfalso.
        assert (forallb (Rbac.has (Rbac.allPermissions u)) required = true) as E'.
        { apply forallb_forall. intros p Hp. apply rbac_has_true, Helem, Hreq.
          apply list_elem_of_In. exact Hp. }
        congruence.
    + intros s. destruct (forallb _ _); [|discriminate]. intros [= <-]. reflexivity.
    + intros s. destruct (existsb _ _); [|discriminate]. intros [= <-]. reflexivity.
Qed.

(** The housekeeper holds the stored permission next to the defaults of
    the role, and passes a check that needs one of each. *)
Lemma allPermissions_is_union_witness :
  Rbac.allPermissions housekeeper
    = list_to_set ["manage_housekeeping"; "assign_tasks"] ∪ list_to_set ["view_reports"]
  /\ Rbac.requirePermission ["view_reports"; "assign_tasks"] (request_of housekeeper)
     = Next (list_to_set ["manage_housekeeping"; "assign_tasks"]
             ∪ list_to_set ["view_reports"]).
Proof.
  destruct (allPermissions_is_union housekeeper
              (mkRole "HOUSEKEEPING" ["view_reports"] true)
              ["manage_housekeeping"; "assign_tasks"] eq_refl eq_refl)
    as (Hall & _ & _ & Hreq).
  split; [exact Hall|].
  destruct (Hreq (request_of housekeeper) ["view_reports"; "assign_tasks"] eq_refl)
    as [Hiff _].
  apply Hiff. intros p Hp.
  apply elem_of_cons in Hp as [-> | Hp]; [right; apply list_elem_of_In; simpl; auto|].
  apply elem_of_cons in Hp as [-> | Hp]; [left; apply list_elem_of_In; simpl; auto|].
  apply elem_of_nil in Hp. contradiction.
Defined.

(** ** Progressive delay *)

Lemma slowDown_delay_speedLimiter (hits : Z) :
  RateLimiter.slowDown_delay RateLimiter.speedLimiter hits
  = if hits <=? 30 then 0 else Z.min (hits * 100) 5000.
Proof. reflexivity. Qed.

Lemma slowDown_delay_authSpeedLimiter (hits : Z) :
  RateLimiter.slowDown_delay RateLimiter.authSpeedLimiter hits
  = if hits <=? 2 then 0 else Z.min (hits * 500) 10000.
Proof. reflexivity. Qed.

(** C8.  For the general and the authentication speed limiter, the
    delay is zero for hit counts up to the threshold, does not decrease
    when the hit count grows, and never exceeds the configured maximum,
    5000 ms and 10000 ms; the delay of a request under any key and any
    counters obeys the same bound. *)
Theorem progressive_delay_bounds (o : RateLimiter.SlowDownOptions) :
  o = RateLimiter.speedLimiter \/ o = RateLimiter.authSpeedLimiter ->
  (forall hits, hits <= RateLimiter.delayAfter o ->
     RateLimiter.slowDown_delay o hits = 0)
  /\ (forall h1 h2, h1 <= h2 ->
     RateLimiter.slowDown_delay o h1 <= RateLimiter.slowDown_delay o h2)
  /\ (forall hits, 0 <= RateLimiter.slowDown_delay o hits <= RateLimiter.maxDelayMs o)
  /\ (forall counters req,
        0 <= snd (RateLimiter.slowDown o counters req) <= RateLimiter.maxDelayMs o)
  /\ RateLimiter.maxDelayMs RateLimiter.speedLimiter = 5000
  /\ RateLimiter.maxDelayMs RateLimiter.authSpeedLimiter = 10000.
Proof.
  intros Ho.
  assert (Hbound : forall hits,
             0 <= RateLimiter.slowDown_delay o hits <= RateLimiter.maxDelayMs o).
  { intros hits. destruct Ho as [-> | ->];
      [rewrite slowDown_delay_speedLimiter | rewrite slowDown_delay_authSpeedLimiter];
      simpl; case_match; lia. }
  repeat split; try apply Hbound.
  - intros hits Hh. destruct Ho as [-> | ->];
      [rewrite slowDown_delay_speedLimiter | rewrite slowDown_delay_authSpeedLimiter];
      simpl in Hh; case_match; lia.
  - intros h1 h2 Hle. destruct Ho as [-> | ->];
      [rewrite !slowDown_delay_speedLimiter | rewrite !slowDown_delay_authSpeedLimiter];
      repeat case_match; lia.
  - unfold RateLimiter.slowDown. destruct (RateLimiter.skip o req); simpl;
      [destruct Ho as [-> | ->]; simpl; lia | apply Hbound].
  - unfold RateLimiter.slowDown. destruct (RateLimiter.skip o req); simpl;
      [destruct Ho as [-> | ->]; simpl; lia | apply Hbound].
Qed.

(** The delays of the general limiter at 30, 31, 40 and 60 hits. *)
Lemma progressive_delay_bounds_witness :
  RateLimiter.slowDown_delay RateLimiter.speedLimiter 30 = 0
  /\ RateLimiter.slowDown_delay RateLimiter.speedLimiter 31
     <= RateLimiter.slowDown_delay RateLimiter.speedLimiter 40
  /\ RateLimiter.slowDown_delay RateLimiter.speedLimiter 60 <= 5000.
Proof.
  destruct (progressive_delay_bounds RateLimiter.speedLimiter (or_introl eq_refl))
    as (Hzero & Hmono & Hmax & _).
  split; [|split].
  - apply Hzero. simpl. lia.
  - apply Hmono. lia.
  - apply Hmax.
Defined.

(** * Further properties of the middleware *)

(** ** Revoking: [blacklistToken], [isTokenBlacklisted], [logout] *)

Lemma append_cancel_l (p a b : string) : p +:+ a = p +:+ b -> a = b.
Proof.
  induction p as [|c p IH]; intros H.
  - exact H.
  - apply IH. change (String c (p +:+ a) = String c (p +:+ b)) in H. congruence.
Qed.

Lemma blacklist_key_inj (a b : string) :
  Auth.blacklist_key a = Auth.blacklist_key b -> a = b.
Proof. apply append_cancel_l. Qed.

Lemma blacklistToken_local (st : State) (jti : string) (ttl : Z) :
  jti ∈ tokenBlacklist (Auth.blacklistToken st jti ttl).
Proof.
  unfold Auth.blacklistToken.
  destruct (redisClient st) as [c|]; [|simpl; set_solver].
  destruct (isOpen c); [|simpl; set_solver].
  destruct (redis_setEx c _ ttl "true"); simpl; set_solver.
Qed.

Lemma blacklistToken_reaches_redis (st : State) (jti : string) (ttl : Z) :
  write_reaches_redis st ttl = true ->
  exists c', redisClient (Auth.blacklistToken st jti ttl) = Some c'
             /\ redis_data c' !! Auth.blacklist_key jti = Some "true".
Proof.
  unfold write_reaches_redis, Auth.blacklistToken, redis_setEx.
  destruct (redisClient st) as [c|]; [|discriminate].
  intros [[Ho Hr]%andb_prop Ht]%andb_prop.
  apply negb_true_iff in Hr. apply Z.ltb_lt in Ht.
  rewrite Ho, Hr. destruct (Z.leb_spec ttl 0); [lia|]. simpl.
  eexists. split; [reflexivity|]. simpl. apply lookup_insert_eq.
Qed.

Lemma blacklistToken_misses_redis (st : State) (jti : string) (ttl : Z) :
  write_reaches_redis st ttl = false ->
  redisClient (Auth.blacklistToken st jti ttl) = redisClient st.
Proof.
  unfold write_reaches_redis, Auth.blacklistToken, redis_setEx.
  destruct (redisClient st) as [c|] eqn:Hc; [|intros _; simpl; exact Hc].
  destruct (isOpen c); [|intros _; simpl; exact Hc].
  destruct (redis_rejects c); [intros _; simpl; exact Hc|]. simpl.
  destruct (Z.leb_spec ttl 0); [intros _; simpl; exact Hc|].
  intros Ht. apply Z.ltb_ge in Ht. lia.
Qed.

(** The answer of a lookup that follows a [blacklistToken], the stores
    being what the call left. *)
Lemma isTokenBlacklisted_after_blacklistToken (st st2 : State) (jti : string) (ttl : Z) :
  same_stores (Auth.blacklistToken st jti ttl) st2 ->
  write_reaches_redis st ttl = true \/ lookup_is_local st2 = true ->
  Auth.isTokenBlacklisted st2 jti = true.
Proof.
  intros [Hlocal Hredis] Hor.
  assert (Hin : Auth.has (tokenBlacklist st2) jti = true).
  { apply has_true. rewrite <- Hlocal. apply blacklistToken_local. }
  unfold Auth.isTokenBlacklisted, lookup_is_local in *.
  destruct (redisClient st2) as [c2|]; [|exact Hin].
  destruct (isOpen c2); [|exact Hin].
  unfold redis_get. destruct (redis_rejects c2); [exact Hin|].
  destruct Hor as [Hw | Hl]; [|discriminate].
  destruct (blacklistToken_reaches_redis st jti ttl Hw) as (c' & Hc' & Hkey).
  rewrite Hc' in Hredis. simpl in Hredis. injection Hredis as <-.
  rewrite Hkey. reflexivity.
Qed.

Lemma isTokenBlacklisted_blacklistToken_other (st : State) (jti other : string) (ttl : Z) :
  other <> jti ->
  Auth.isTokenBlacklisted (Auth.blacklistToken st jti ttl) other
  = Auth.isTokenBlacklisted st other.
Proof.
  intros Hne.
  assert (Hlocal : forall s,
             Auth.has (tokenBlacklist (Auth.add_local s jti)) other
             = Auth.has (tokenBlacklist s) other).
  { intros s. unfold Auth.has. simpl. apply bool_decide_ext.
    rewrite elem_of_union, elem_of_singleton. intuition congruence. }
  unfold Auth.blacklistToken, Auth.isTokenBlacklisted.
  destruct (redisClient st) as [c|] eqn:Hc; [|simpl; rewrite Hc; apply Hlocal].
  destruct (isOpen c) eqn:Ho; [|simpl; rewrite Hc, Ho; apply Hlocal].
  unfold redis_setEx, redis_get. destruct (redis_rejects c) eqn:Hr.
  - simpl. rewrite Hc. simpl. rewrite Ho, Hr. apply Hlocal.
  - simpl. destruct (ttl <=? 0); simpl.
    + rewrite Hc. simpl. rewrite Ho, Hr. reflexivity.
    + rewrite Ho, ?Hr. rewrite lookup_insert_ne; [reflexivity|].
      intros Heq. apply blacklist_key_inj in Heq. congruence.
Qed.

(** After [blacklistToken], the stores being what the call left, the
    identifier is reported blacklisted whenever the write reached Redis
    (open client, resolving command, positive time to live) or the
    lookup answers from the in-process set (no client, closed client,
    rejecting command).  When the write did not reach Redis (a time to
    live of zero, which Redis refuses, is enough) and the lookup asks a
    resolving Redis that held no entry, the identifier is reported not
    blacklisted. *)
Theorem blacklistToken_then_blacklisted (st st2 : State) (jti : string) (ttl : Z) :
  same_stores (Auth.blacklistToken st jti ttl) st2 ->
  (write_reaches_redis st ttl = true \/ lookup_is_local st2 = true ->
     Auth.isTokenBlacklisted st2 jti = true)
  /\ (write_reaches_redis st ttl = false -> lookup_is_local st2 = false ->
      (forall c, redisClient st = Some c ->
                 redis_data c !! Auth.blacklist_key jti = None) ->
      Auth.isTokenBlacklisted st2 jti = false).
Proof.
  intros Hsame. split.
  - apply isTokenBlacklisted_after_blacklistToken. exact Hsame.
  - intros Hw Hl Hnone. destruct Hsame as [_ Hredis].
    rewrite (blacklistToken_misses_redis st jti ttl Hw) in Hredis.
    unfold Auth.isTokenBlacklisted, lookup_is_local in *.
    destruct (redisClient st2) as [c2|]; [|discriminate].
    destruct (isOpen c2); [|discriminate]. simpl in Hl.
    unfold redis_get. rewrite Hl.
    destruct (redisClient st) as [c|]; [|discriminate].
    simpl in Hredis. injection Hredis as Hdata.
    rewrite <- Hdata, (Hnone c eq_refl). reflexivity.
Qed.

(** A working Redis: a positive time to live is honoured, a time to live
    of zero leaves the identifier not blacklisted. *)
Lemma blacklistToken_then_blacklisted_witness :
  Auth.isTokenBlacklisted
    (Auth.blacklistToken (mkState (Some (mkRedisClient true ∅ false)) ∅ ∅ false)
       "jti-1" 890) "jti-1" = true
  /\ Auth.isTokenBlacklisted
       (Auth.blacklistToken (mkState (Some (mkRedisClient true ∅ false)) ∅ ∅ false)
          "jti-1" 0) "jti-1" = false.
Proof.
  split.
  - destruct (blacklistToken_then_blacklisted
                (mkState (Some (mkRedisClient true ∅ false)) ∅ ∅ false)
                (Auth.blacklistToken
                   (mkState (Some (mkRedisClient true ∅ false)) ∅ ∅ false) "jti-1" 890)
                "jti-1" 890) as [Hyes _]; [split; reflexivity|].
    apply Hyes. left. reflexivity.
  - destruct (blacklistToken_then_blacklisted
                (mkState (Some (mkRedisClient true ∅ false)) ∅ ∅ false)
                (Auth.blacklistToken
                   (mkState (Some (mkRedisClient true ∅ false)) ∅ ∅ false) "jti-1" 0)
                "jti-1" 0) as [_ Hno]; [split; reflexivity|].
    apply Hno; [reflexivity | reflexivity |].
    intros c [= <-]. reflexivity.
Defined.

(** [blacklistToken] changes the answer of [isTokenBlacklisted] for no
    other identifier. *)
Theorem blacklistToken_frame (st : State) (jti other : string) (ttl : Z) :
  other <> jti ->
  Auth.isTokenBlacklisted (Auth.blacklistToken st jti ttl) other
  = Auth.isTokenBlacklisted st other.
Proof.
  intros Hne.
  rewrite (isTokenBlacklisted_blacklistToken_other st jti other ttl Hne).
  reflexivity.
Qed.

Lemma blacklistToken_frame_witness :
  Auth.isTokenBlacklisted (Auth.blacklistToken st_local "jti-1" 890) "jti-2"
  = Auth.isTokenBlacklisted st_local "jti-2".
Proof. apply blacklistToken_frame. discriminate. Defined.

Lemma blacklistToken_keeps_users (st : State) (jti : string) (ttl : Z) :
  users (Auth.blacklistToken st jti ttl) = users st
  /\ mongo_rejects (Auth.blacklistToken st jti ttl) = mongo_rejects st.
Proof.
  unfold Auth.blacklistToken.
  destruct (redisClient st) as [c|]; [|split; reflexivity].
  destruct (isOpen c); [|split; reflexivity].
  destruct (redis_setEx c _ ttl "true"); split; reflexivity.
Qed.

(** ** What a success of [protect] guarantees *)

Lemma protect_success_inv (lib : JwtLib) (env : ProcessEnv) (st : State) (now : Z)
    (req : Request) (a : Auth.Authenticated) :
  Auth.protect lib env st now req = Next a ->
  reaches_password_check lib env st now req (raw (Auth.auth_token a))
    (decoded (Auth.auth_token a)) (Auth.auth_user a)
  /\ UserModel.changedPasswordAfter (passwordChangedAt (Auth.auth_user a))
       (claim_iat (decoded (Auth.auth_token a))) = false
  /\ Auth.refresh_hint a = Auth.near_expiry now (decoded (Auth.auth_token a)).
Proof.
  unfold Auth.protect, reaches_password_check.
  destruct (Js.truthy (Auth.extractToken req)) eqn:Ht; [|discriminate]. simpl.
  destruct (Auth.extractToken req) as [t|] eqn:Hx; [|discriminate].
  destruct (jwt_verify lib t (JWT_SECRET env) now) as [d|[]] eqn:Hv; try discriminate.
  destruct (Auth.revoked st d) eqn:Hr; [discriminate|].
  unfold Auth.check_user.
  destruct (User_findById st (claim_id d)) as [[user|]|] eqn:Hu; try discriminate.
  destruct (AccountStatus_eqb (accountStatus user) ACTIVE) eqn:Ha; [|discriminate].
  simpl.
  destruct (Auth.role_active user) eqn:Hrole; [|discriminate]. simpl.
  destruct (UserModel.changedPasswordAfter _ _) eqn:Hc; [discriminate|].
  intros [= <-]. simpl. apply AccountStatus_eqb_eq in Ha.
  repeat split; assumption.
Qed.

(** When [protect] admits a request, the request carried a non-empty
    token that verified to the attached claims, the identifier was not
    revoked, and the attached user is the stored identity of the token's
    subject, ACTIVE, with an active role and no password change after
    the token was issued. *)
Theorem protect_sound (lib : JwtLib) (env : ProcessEnv) (st : State) (now : Z)
    (req : Request) (a : Auth.Authenticated) :
  Auth.protect lib env st now req = Next a ->
  reaches_password_check lib env st now req (raw (Auth.auth_token a))
    (decoded (Auth.auth_token a)) (Auth.auth_user a)
  /\ UserModel.changedPasswordAfter (passwordChangedAt (Auth.auth_user a))
       (claim_iat (decoded (Auth.auth_token a))) = false
  /\ Auth.refresh_hint a = Auth.near_expiry now (decoded (Auth.auth_token a)).
Proof.
  intros Hp.
  destruct (protect_success_inv lib env st now req a Hp) as (Hreach & Hfresh & Hhint).
  split; [exact Hreach|]. split; [exact Hfresh | exact Hhint].
Qed.

Lemma protect_sound_witness :
  accountStatus alice = ACTIVE /\ Auth.role_active alice = true.
Proof.
  destruct (protect_sound demoJwt demoEnv st_local demo_now bearer_request
              (Auth.mkAuthenticated alice (mkTokenInfo demo_token demo_claims) false)
              eq_refl)
    as [(_ & _ & _ & _ & _ & Ha & Hr) _].
  split; [exact Ha | exact Hr].
Defined.

(** After [logout] ran on a request that [protect] had admitted with a
    token carrying a [jti], and with the stores as [logout] left them,
    [protect] rejects the same token as revoked while it still verifies,
    provided the revocation reached Redis (open client, resolving
    command, token not yet expired at logout) or the later lookup
    answers from the in-process set; whether sending the logout answer
    failed does not matter. *)
Theorem logout_then_protect_revoked (lib : JwtLib) (env : ProcessEnv) (st st2 : State)
    (now later : Z) (req : Request) (a : Auth.Authenticated) (response_throws : bool) :
  Auth.protect lib env st now req = Next a ->
  Js.truthy (claim_jti (decoded (Auth.auth_token a))) = true ->
  same_stores (fst (Auth.logout st now req (Some (Auth.auth_token a)) response_throws))
    st2 ->
  write_reaches_redis st
    (Z.max (claim_exp (decoded (Auth.auth_token a)) - now / 1000) 0) = true
  \/ lookup_is_local st2 = true ->
  jwt_verify lib (raw (Auth.auth_token a)) (JWT_SECRET env) later
    = JwtOk (decoded (Auth.auth_token a)) ->
  Auth.protect lib env st2 later req = NextErr Auth.err_revoked.
Proof.
  intros Hp Hj Hsame Hor Hv.
  destruct (protect_success_inv _ _ _ _ _ _ Hp) as [(Hx & Ht & _) _].
  rewrite (protect_decoded lib env st2 later req _ _ Hx Ht Hv).
  assert (Hst : fst (Auth.logout st now req (Some (Auth.auth_token a)) response_throws)
                = Auth.logout_state st now req (Some (Auth.auth_token a))).
  { unfold Auth.logout. destruct response_throws; reflexivity. }
  rewrite Hst in Hsame. unfold Auth.logout_state in Hsame. unfold Auth.revoked.
  destruct (claim_jti (decoded (Auth.auth_token a))) as [jti|] eqn:Ej; [|discriminate].
  rewrite Hx, Ht, Hj in Hsame. simpl in Hsame.
  rewrite Hj, (isTokenBlacklisted_after_blacklistToken _ _ _ _ Hsame Hor).
  reflexivity.
Qed.

Lemma logout_then_protect_revoked_witness :
  Auth.protect demoJwt demoEnv
    (fst (Auth.logout st_local demo_now bearer_request
            (Some (mkTokenInfo demo_token demo_claims)) false))
    (demo_now + 5000) bearer_request
  = NextErr Auth.err_revoked.
Proof.
  apply (logout_then_protect_revoked demoJwt demoEnv st_local
           (fst (Auth.logout st_local demo_now bearer_request
                   (Some (mkTokenInfo demo_token demo_claims)) false))
           demo_now (demo_now + 5000) bearer_request
           (Auth.mkAuthenticated alice (mkTokenInfo demo_token demo_claims) false) false);
    try reflexivity.
  - split; reflexivity.
  - right. reflexivity.
Defined.

(** [logout] revokes at most the identifier of [req.token]: the answer
    of [isTokenBlacklisted] for any other identifier is unchanged, and
    without [req.token] nothing is revoked at all. *)
Theorem logout_frame (st : State) (now : Z) (req : Request)
    (req_token : option TokenInfo) (response_throws : bool) (other : string) :
  (forall info, req_token = Some info -> claim_jti (decoded info) <> Some other) ->
  Auth.isTokenBlacklisted (fst (Auth.logout st now req req_token response_throws)) other
  = Auth.isTokenBlacklisted st other.
Proof.
  intros Hother.
  assert (Hst : fst (Auth.logout st now req req_token response_throws)
                = Auth.logout_state st now req req_token).
  { unfold Auth.logout. destruct response_throws; reflexivity. }
  rewrite Hst. unfold Auth.logout_state.
  destruct req_token as [info|]; [|reflexivity].
  destruct (claim_jti (decoded info)) as [jti|] eqn:Ej; [|reflexivity].
  destruct (Js.truthy (Auth.extractToken req) && Js.truthy (Some jti)); [|reflexivity].
  apply isTokenBlacklisted_blacklistToken_other. intros ->. exact (Hother info eq_refl Ej).
Qed.

Lemma logout_frame_witness :
  Auth.isTokenBlacklisted
    (fst (Auth.logout st_local demo_now bearer_request None false)) "jti-1"
  = Auth.isTokenBlacklisted st_local "jti-1".
Proof. apply logout_frame. intros info H. discriminate H. Defined.

(** ** Edge behaviour of the token checks *)

(** An Authorization header ['Bearer '] followed by nothing, or by a
    further space, yields the empty token: [protect] answers that the
    caller is not logged in and [optionalAuth] attaches nobody, whatever
    cookies the request carries. *)
Theorem empty_bearer_shadows_cookies (lib : JwtLib) (env : ProcessEnv) (st : State)
    (now : Z) (req : Request) (rest : string) :
  headers_authorization req = Some ("Bearer " +:+ rest) ->
  rest = "" \/ (exists r, rest = " " +:+ r) ->
  Auth.extractToken req = Some ""
  /\ Auth.protect lib env st now req = NextErr Auth.err_not_logged_in
  /\ Auth.optionalAuth lib env st now req = Next None.
Proof.
  intros Hh Hrest.
  assert (Hx : Auth.extractToken req = Some "").
  { unfold Auth.extractToken. rewrite Hh.
    destruct Hrest as [-> | [r ->]]; reflexivity. }
  unfold Auth.protect, Auth.optionalAuth. rewrite Hx. repeat split.
Qed.

Lemma empty_bearer_shadows_cookies_witness :
  Auth.protect demoJwt demoEnv st_local demo_now
    (request_with (Some "Bearer ") (Some demo_token) (Some demo_token))
  = NextErr Auth.err_not_logged_in.
Proof.
  apply (empty_bearer_shadows_cookies demoJwt demoEnv st_local demo_now
           (request_with (Some "Bearer ") (Some demo_token) (Some demo_token)) "");
    [reflexivity | left; reflexivity].
Defined.

(** The refresh hint is off while the token is not older than three
    quarters of its lifetime (in particular at the second of issue), and
    once on it stays on at every later time. *)
Theorem near_expiry_threshold (d : Claims) (now later : Z) :
  claim_iat d <= claim_exp d ->
  now <= later ->
  (4 * (now / 1000 - claim_iat d) <= 3 * (claim_exp d - claim_iat d) ->
     Auth.near_expiry now d = false)
  /\ (now / 1000 = claim_iat d -> Auth.near_expiry now d = false)
  /\ (Auth.near_expiry now d = true -> Auth.near_expiry later d = true).
Proof.
  intros Hlife Hle. unfold Auth.near_expiry.
  assert (now / 1000 <= later / 1000) by (apply Z.div_le_mono; lia).
  repeat split.
  - intros Hq. apply Z.ltb_ge. lia.
  - intros Hq. apply Z.ltb_ge. lia.
  - intros Hn. apply Z.ltb_lt in Hn. apply Z.ltb_lt. lia.
Qed.

(** The fifteen minute token of the small deployment: no hint after
    ten seconds, a hint after 700 and after 800 seconds. *)
Lemma near_expiry_threshold_witness :
  Auth.near_expiry demo_now demo_claims = false
  /\ (Auth.near_expiry 1700000700000 demo_claims = true ->
      Auth.near_expiry 1700000800000 demo_claims = true).
Proof.
  split.
  - destruct (near_expiry_threshold demo_claims demo_now demo_now) as [Hoff _];
      [vm_compute; discriminate | lia |].
    apply Hoff. vm_compute. discriminate.
  - destruct (near_expiry_threshold demo_claims 1700000700000 1700000800000)
      as (_ & _ & Hstay); [vm_compute; discriminate | lia |].
    exact Hstay.
Defined.

(** ** [optionalAuth] *)

Lemma protect_success_optionalAuth_witness :
  Auth.optionalAuth demoJwt demoEnv st_local demo_now bearer_request
  = Next (Some alice).
Proof.
  apply (protect_success_optionalAuth demoJwt demoEnv st_local demo_now bearer_request
           (Auth.mkAuthenticated alice (mkTokenInfo demo_token demo_claims) false)).
  reflexivity.
Defined.

(** A user attached by [optionalAuth] is the stored, ACTIVE identity of
    the subject of a non-empty token that verified. *)
Theorem optionalAuth_sound (lib : JwtLib) (env : ProcessEnv) (st : State) (now : Z)
    (req : Request) (u : User) :
  Auth.optionalAuth lib env st now req = Next (Some u) ->
  exists token d,
    Auth.extractToken req = Some token
    /\ token <> ""
    /\ jwt_verify lib token (JWT_SECRET env) now = JwtOk d
    /\ User_findById st (claim_id d) = Resolves (Some u)
    /\ accountStatus u = ACTIVE.
Proof.
  unfold Auth.optionalAuth.
  destruct (Js.truthy (Auth.extractToken req)) eqn:Ht; [|discriminate]. simpl.
  destruct (Auth.extractToken req) as [t|] eqn:Hx; [|discriminate].
  destruct (jwt_verify lib t (JWT_SECRET env) now) as [d|] eqn:Hv; [|discriminate].
  destruct (User_findById st (claim_id d)) as [[user|]|] eqn:Hu; try discriminate.
  destruct (AccountStatus_eqb (accountStatus user) ACTIVE) eqn:Ha; [|discriminate].
  intros [= <-]. exists t, d. apply AccountStatus_eqb_eq in Ha.
  repeat split; try assumption.
  intros ->. discriminate Ht.
Qed.

Lemma optionalAuth_sound_witness :
  exists token d,
    Auth.extractToken bearer_request = Some token
    /\ token <> ""
    /\ jwt_verify demoJwt token (JWT_SECRET demoEnv) demo_now = JwtOk d
    /\ User_findById st_local (claim_id d) = Resolves (Some alice)
    /\ accountStatus alice = ACTIVE.
Proof.
  apply (optionalAuth_sound demoJwt demoEnv st_local demo_now bearer_request alice).
  reflexivity.
Defined.

(** ** Role gates *)

Lemma includes_In (xs : list string) (x : string) :
  Js.includes xs x = true <-> In x xs.
Proof.
  unfold Js.includes. rewrite existsb_exists. split.
  - intros (y & Hy & He). apply String.eqb_eq in He. subst. exact Hy.
  - intros Hx. exists x. split; [exact Hx | apply String.eqb_refl].
Qed.

(** The four entries of [ROLE_HIERARCHY]. *)
Lemma ROLE_HIERARCHY_cases (name : string) (level : Z) :
  Rbac.ROLE_HIERARCHY !! name = Some level ->
  (name = "HOUSEKEEPING" /\ level = 0) \/ (name = "RECEPTIONIST" /\ level = 1)
  \/ (name = "MANAGER" /\ level = 2) \/ (name = "ADMIN" /\ level = 3).
Proof.
  intros H. apply elem_of_list_to_map_2 in H.
  repeat (apply elem_of_cons in H; destruct H as [H|H]; [injection H as -> ->; tauto|]).
  apply elem_of_nil in H. contradiction.
Qed.

(** [restrictTo] admits exactly the authenticated requests whose role
    has a non-empty name that is one of the allowed roles; with no
    allowed role it admits nobody. *)
Theorem restrictTo_passes_iff (allowedRoles : list string) (req : Request) :
  (Rbac.restrictTo allowedRoles req = Next tt
   <-> exists u name, req_user req = Some u /\ Rbac.userRoleName u = Some name
                      /\ name <> "" /\ In name allowedRoles)
  /\ Rbac.restrictTo [] req <> Next tt.
Proof.
  assert (Hiff : forall allowed,
             Rbac.restrictTo allowed req = Next tt
             <-> exists u name, req_user req = Some u /\ Rbac.userRoleName u = Some name
                                /\ name <> "" /\ In name allowed).
  { intros allowed. unfold Rbac.restrictTo.
    destruct (req_user req) as [u|].
    - destruct (Rbac.userRoleName u) as [name|] eqn:Hn.
      + destruct (Js.truthy (Some name)) eqn:Ht; simpl.
        * apply truthy_Some in Ht.
          destruct (Js.includes allowed name) eqn:Hi; simpl.
          -- split; [|reflexivity]. intros _. exists u, name.
             apply includes_In in Hi. auto.
          -- split; [discriminate|]. intros (u' & n' & [= <-] & Hn' & _ & Hin).
             rewrite Hn in Hn'. injection Hn' as <-.
             apply includes_In in Hin. congruence.
        * split; [discriminate|]. intros (u' & n' & [= <-] & Hn' & Hne & _).
          rewrite Hn in Hn'. injection Hn' as <-.
          apply truthy_Some in Hne. congruence.
      + simpl. split; [discriminate|]. intros (u' & n' & [= <-] & Hn' & _).
        congruence.
    - split; [discriminate|]. intros (u' & n' & Hu & _). discriminate. }
  split; [apply Hiff|].
  intros H. apply Hiff in H. destruct H as (u & name & _ & _ & _ & []).
Qed.

(** For a user whose role is one the schema accepts (or is missing)
    and a minimum role of the hierarchy, [requireMinimumRole] admits
    exactly when the user's role has a level not below the required
    one; a missing role is answered with the 403 of an unknown level, a
    lower level with the 403 of insufficient authority; whoever is at or
    above the level of an admitted user is admitted too. *)
Theorem requireMinimumRole_passes_iff (minimumRole : string) (req : Request) (u : User)
    (requiredLevel : Z) :
  req_user req = Some u ->
  enum_role u ->
  Rbac.ROLE_HIERARCHY !! minimumRole = Some requiredLevel ->
  (Rbac.requireMinimumRole minimumRole req = Next tt
   <-> exists level, Rbac.userLevel u = Some level /\ requiredLevel <= level)
  /\ (role u = None ->
      Rbac.requireMinimumRole minimumRole req = NextErr Rbac.err_level_unknown)
  /\ (forall level, Rbac.userLevel u = Some level -> level < requiredLevel ->
      Rbac.requireMinimumRole minimumRole req
      = NextErr (mkAppError
                   ("Insufficient authority. Minimum required role: " +:+ minimumRole)
                   403))
  /\ (forall u' level level',
        enum_role u' ->
        Rbac.userLevel u = Some level -> Rbac.userLevel u' = Some level' ->
        level <= level' ->
        Rbac.requireMinimumRole minimumRole req = Next tt ->
        Rbac.requireMinimumRole minimumRole (request_of u') = Next tt).
Proof.
  intros Hu _ Hr. unfold Rbac.requireMinimumRole, request_of. simpl.
  rewrite Hu, Hr. split; [|split; [|split]].
  - destruct (Rbac.userLevel u) as [level|].
    + destruct (Z.ltb_spec level requiredLevel).
      * split; [discriminate|]. intros (l' & [= <-] & Hle). lia.
      * split; [|reflexivity]. intros _. exists level. auto.
    + split; [discriminate|]. intros (l' & Hl & _). discriminate.
  - intros Hrole. unfold Rbac.userLevel, Rbac.userRoleName. rewrite Hrole. reflexivity.
  - intros level -> Hlt.
    destruct (Z.ltb_spec level requiredLevel); [reflexivity|lia].
  - intros u' level level' _ -> -> Hle.
    destruct (Z.ltb_spec level requiredLevel); [discriminate|]. intros _.
    destruct (Z.ltb_spec level' requiredLevel); [lia|reflexivity].
Qed.

Lemma requireMinimumRole_passes_iff_witness :
  Rbac.requireMinimumRole "MANAGER" (request_of (acting "ADMIN")) = Next tt
  /\ Rbac.requireMinimumRole "MANAGER" (request_of roleless)
     = NextErr Rbac.err_level_unknown.
Proof.
  split.
  - destruct (requireMinimumRole_passes_iff "MANAGER" (request_of (acting "ADMIN"))
                (acting "ADMIN") 2 eq_refl) as [Hiff _];
      [unfold enum_role; simpl; auto | reflexivity |].
    apply Hiff. exists 3. split; [reflexivity | lia].
  - destruct (requireMinimumRole_passes_iff "MANAGER" (request_of roleless)
                roleless 2 eq_refl) as (_ & Hnone & _);
      [exact I | reflexivity |].
    apply Hnone. reflexivity.
Defined.

(** For an authenticated user without a populated role (such as
    [optionalAuth] can attach), [preventPrivilegeEscalation] admits the
    naming of any valid role, the comparison with [undefined] being
    false, while [requireMinimumRole] rejects the same user for every
    minimum. *)
Theorem unknown_actor_level (req : Request) (u : User) (requested : string)
    (requestedLevel : Z) :
  req_user req = Some u ->
  Js.or_else (body_roleName req) (body_role req) = Some requested ->
  requested <> "" ->
  role u = None ->
  Rbac.ROLE_HIERARCHY !! Js.toUpperCase requested = Some requestedLevel ->
  Rbac.preventPrivilegeEscalation req = Next tt
  /\ forall minimumRole,
       Rbac.requireMinimumRole minimumRole req = NextErr Rbac.err_level_unknown.
Proof.
  intros Hu Hr Hne Hrole Hrl.
  assert (Hl : Rbac.userLevel u = None).
  { unfold Rbac.userLevel, Rbac.userRoleName. rewrite Hrole. reflexivity. }
  split.
  - rewrite (preventPrivilegeEscalation_named req u requested Hu Hr Hne), Hrl, Hl.
    reflexivity.
  - intros m. unfold Rbac.requireMinimumRole. rewrite Hu, Hl. reflexivity.
Qed.

Lemma unknown_actor_level_witness :
  Rbac.preventPrivilegeEscalation
    (mkRequest None None None "203.0.113.7" None None (Some "ADMIN") (Some roleless))
  = Next tt
  /\ Rbac.requireMinimumRole "HOUSEKEEPING"
       (mkRequest None None None "203.0.113.7" None None (Some "ADMIN") (Some roleless))
     = NextErr Rbac.err_level_unknown.
Proof.
  destruct (unknown_actor_level
              (mkRequest None None None "203.0.113.7" None None (Some "ADMIN")
                 (Some roleless))
              roleless "ADMIN" 3 eq_refl eq_refl ltac:(discriminate) eq_refl eq_refl)
    as [Hpass Hmin].
  split; [exact Hpass | apply Hmin].
Defined.

(** An actor with a level whom [preventPrivilegeEscalation] lets name a
    role passes [requireMinimumRole] for that role. *)
Theorem escalation_pass_outranks (req : Request) (u : User) (requested : string)
    (actorLevel : Z) :
  req_user req = Some u ->
  Js.or_else (body_roleName req) (body_role req) = Some requested ->
  requested <> "" ->
  Rbac.userLevel u = Some actorLevel ->
  Rbac.preventPrivilegeEscalation req = Next tt ->
  Rbac.requireMinimumRole (Js.toUpperCase requested) req = Next tt.
Proof.
  intros Hu Hr Hne Hl.
  rewrite (preventPrivilegeEscalation_named req u requested Hu Hr Hne), Hl.
  unfold Rbac.requireMinimumRole. rewrite Hu, Hl.
  destruct (Rbac.ROLE_HIERARCHY !! Js.toUpperCase requested) as [rl|]; [|discriminate].
  simpl. destruct (Z.leb_spec actorLevel rl); [discriminate|]. intros _.
  destruct (Z.ltb_spec actorLevel rl); [lia|reflexivity].
Qed.

Lemma escalation_pass_outranks_witness :
  Rbac.requireMinimumRole (Js.toUpperCase "manager") (assign_request "ADMIN" "manager")
  = Next tt.
Proof.
  apply (escalation_pass_outranks (assign_request "ADMIN" "manager")
           (acting "ADMIN") "manager" 3); try reflexivity. discriminate.
Defined.

(** For a bypass role of the hierarchy, [checkOwnership] attaches no
    filter exactly when the role of the user has a level not below the
    bypass level; in every other case the filter binds the owner field
    to the id of the user.  With the default bypass role only an ADMIN
    goes unfiltered. *)
Theorem checkOwnership_filter (ownerField bypassRole : string) (req : Request) (u : User)
    (bypassLevel : Z) :
  req_user req = Some u ->
  Rbac.ROLE_HIERARCHY !! bypassRole = Some bypassLevel ->
  (Rbac.checkOwnership ownerField bypassRole req = Next None
   <-> exists level, Rbac.userLevel u = Some level /\ bypassLevel <= level)
  /\ (Rbac.checkOwnership ownerField bypassRole req <> Next None ->
      Rbac.checkOwnership ownerField bypassRole req = Next (Some (ownerField, _id u)))
  /\ (Rbac.checkOwnership ownerField "ADMIN" req = Next None
      <-> Rbac.userRoleName u = Some "ADMIN").
Proof.
  intros Hu Hb.
  assert (Hiff : forall bypass bl,
             Rbac.ROLE_HIERARCHY !! bypass = Some bl ->
             Rbac.checkOwnership ownerField bypass req = Next None
             <-> exists level, Rbac.userLevel u = Some level /\ bl <= level).
  { intros bypass bl Hbl. unfold Rbac.checkOwnership, Rbac.js_ge_levels.
    rewrite Hu, Hbl. destruct (Rbac.userLevel u) as [level|].
    - destruct (Z.leb_spec bl level).
      + split; [|reflexivity]. intros _. exists level. auto.
      + split; [discriminate|]. intros (l' & [= <-] & Hle). lia.
    - split; [discriminate|]. intros (l' & Hl & _). discriminate. }
  split; [apply Hiff; exact Hb|]. split.
  - unfold Rbac.checkOwnership. rewrite Hu.
    destruct (Rbac.js_ge_levels _ _); [congruence|reflexivity].
  - rewrite (Hiff "ADMIN" 3 eq_refl). unfold Rbac.userLevel. split.
    + intros (level & Hl & Hle).
      destruct (Rbac.userRoleName u) as [name|]; [|discriminate].
      destruct (ROLE_HIERARCHY_cases _ _ Hl) as [[-> ->]|[[-> ->]|[[-> ->]|[-> ->]]]];
        try lia. reflexivity.
    + intros ->. exists 3. split; [reflexivity | lia].
Qed.

Lemma checkOwnership_filter_witness :
  Rbac.checkOwnership "createdBy" "ADMIN" (request_of (acting "MANAGER"))
  = Next (Some ("createdBy", "actor")).
Proof.
  destruct (checkOwnership_filter "createdBy" "ADMIN" (request_of (acting "MANAGER"))
              (acting "MANAGER") 3 eq_refl eq_refl) as (_ & Hfilter & _).
  apply Hfilter. vm_compute. discriminate.
Defined.

(** ** Permission checks *)

(** For a user whose role is one the schema accepts (or is missing):
    with no required permission [requirePermission] admits the request
    and [requireAnyPermission] rejects it with 403; for a non-empty
    requirement whatever passes the ALL check passes the ANY check. *)
Theorem permission_modes (req : Request) (u : User) (required : list string) :
  req_user req = Some u ->
  enum_role u ->
  Rbac.requirePermission [] req = Next (Rbac.allPermissions u)
  /\ Rbac.requireAnyPermission [] req
     = NextErr (mkAppError "You need at least one of the following permissions: " 403)
  /\ (required <> [] ->
      Rbac.requirePermission required req = Next (Rbac.allPermissions u) ->
      Rbac.requireAnyPermission required req = Next (Rbac.allPermissions u)).
Proof.
  intros Hu _. unfold Rbac.requirePermission, Rbac.requireAnyPermission.
  rewrite Hu. simpl. split; [reflexivity|]. split; [reflexivity|].
  intros Hne. destruct required as [|p rest]; [contradiction|]. simpl.
  destruct (Rbac.has (Rbac.allPermissions u) p); simpl; [reflexivity|discriminate].
Qed.

Lemma permission_modes_witness :
  Rbac.requirePermission [] (request_of alice) = Next (Rbac.allPermissions alice)
  /\ Rbac.requireAnyPermission [] (request_of alice)
     = NextErr (mkAppError "You need at least one of the following permissions: " 403).
Proof.
  destruct (permission_modes (request_of alice) alice [] eq_refl) as (Hall & Hany & _);
    [unfold enum_role; simpl; auto|].
  split; [exact Hall | exact Hany].
Defined.

(** A user whose role is named ADMIN passes [requirePermission] for any
    list of permissions of the role schema, whatever permissions are
    stored on the role record. *)
Theorem admin_has_every_permission (req : Request) (u : User) (required : list string) :
  req_user req = Some u ->
  Rbac.userRoleName u = Some "ADMIN" ->
  (forall p, In p required -> In p Role_permission_enum) ->
  Rbac.requirePermission required req = Next (Rbac.allPermissions u).
Proof.
  intros Hu Hn Hreq. unfold Rbac.requirePermission. rewrite Hu. simpl.
  assert (Hall : forallb (Rbac.has (Rbac.allPermissions u)) required = true).
  { apply forallb_forall. intros p Hp. apply rbac_has_true, allPermissions_elem. left.
    unfold Rbac.defaultPermissions. rewrite Hn.
    apply list_elem_of_In. exact (Hreq p Hp). }
  rewrite Hall. reflexivity.
Qed.

Lemma admin_has_every_permission_witness :
  Rbac.requirePermission ["manage_users"; "view_audit_logs"] (request_of (acting "ADMIN"))
  = Next (Rbac.allPermissions (acting "ADMIN")).
Proof.
  apply admin_has_every_permission; [reflexivity | reflexivity |].
  intros p [<- | [<- | []]]; vm_compute; tauto.
Defined.

(** ** Self modification *)

Lemma filter_includes_nil (body_keys protectedFields : list string) :
  List.filter (Js.includes body_keys) protectedFields = []
  <-> forall field, In field protectedFields -> ~ In field body_keys.
Proof.
  induction protectedFields as [|f fs IH]; simpl.
  - split; [intros _ field []|reflexivity].
  - destruct (Js.includes body_keys f) eqn:Hf.
    + split; [discriminate|]. intros H. exfalso.
      apply (H f); [left; reflexivity | apply includes_In; exact Hf].
    + rewrite IH. split.
      * intros H field [<-|Hin]; [|apply H; exact Hin].
        intros Hin. apply includes_In in Hin. congruence.
      * intros H field Hin. apply H. right. exact Hin.
Qed.

(** [preventSelfModification] never blocks a request aimed at another
    user or at no user.  A request aimed at the user itself, with some
    field protected: if the body has an own property ['hasOwnProperty'],
    or no longer inherits that method, the middleware throws a TypeError
    without reaching [next]; otherwise it passes exactly when the body
    has none of the protected fields and is answered with 403 naming the
    fields it has. *)
Theorem preventSelfModification_blocks_iff (protectedFields : list string)
    (params_id params_userId : option string) (body_keys : list string)
    (body_inherits : bool) (req : Request) (u : User) :
  req_user req = Some u ->
  (Js.or_else params_id params_userId <> Some (_id u) ->
     Rbac.preventSelfModification protectedFields params_id params_userId body_keys
       body_inherits req = Returned (Next tt))
  /\ (Js.or_else params_id params_userId = Some (_id u) -> _id u <> "" ->
      protectedFields <> [] ->
      (In "hasOwnProperty" body_keys \/ body_inherits = false ->
         Rbac.preventSelfModification protectedFields params_id params_userId
           body_keys body_inherits req = Threw "TypeError")
      /\ (~ In "hasOwnProperty" body_keys -> body_inherits = true ->
          (Rbac.preventSelfModification protectedFields params_id params_userId
             body_keys body_inherits req = Returned (Next tt)
           <-> forall field, In field protectedFields -> ~ In field body_keys)
          /\ ((exists field, In field protectedFields /\ In field body_keys) ->
              Rbac.preventSelfModification protectedFields params_id params_userId
                body_keys body_inherits req
              = Returned (NextErr (mkAppError
                  ("You cannot modify your own "
                   +:+ Js.join ", " (List.filter (Js.includes body_keys) protectedFields)
                   +:+ ".") 403))))).
Proof.
  intros Hu. unfold Rbac.preventSelfModification. rewrite Hu. split.
  - intros Hne. destruct (Js.or_else params_id params_userId) as [target|]; [|reflexivity].
    destruct (String.eqb_spec target (_id u)); [congruence|].
    rewrite andb_false_r. reflexivity.
  - intros -> Hid Hprot. apply truthy_Some in Hid. rewrite Hid, String.eqb_refl. simpl.
    unfold Rbac.blockedFields.
    destruct protectedFields as [|f fs]; [contradiction|].
    split.
    + intros [Hown | ->].
      * apply includes_In in Hown. rewrite Hown. reflexivity.
      * rewrite orb_true_r. reflexivity.
    + intros Hown ->.
      destruct (Js.includes body_keys "hasOwnProperty") eqn:Hh;
        [apply includes_In in Hh; contradiction|].
      cbn [negb orb].
      pose proof (filter_includes_nil body_keys (f :: fs)) as Hnil.
      destruct (List.filter (Js.includes body_keys) (f :: fs)) as [|b bs] eqn:Hb.
      * simpl. split.
        -- split; [intros _; apply Hnil; reflexivity | reflexivity].
        -- intros (field & Hp & Hk). exfalso.
           destruct Hnil as [Hnil _]. exact (Hnil eq_refl field Hp Hk).
      * destruct (0 <? Z.of_nat (length (b :: bs))) eqn:Hpos;
          [|apply Z.ltb_ge in Hpos; simpl length in Hpos; lia].
        split.
        -- split; [discriminate|]. intros H. apply Hnil in H. discriminate.
        -- intros _. reflexivity.
Qed.

Lemma preventSelfModification_blocks_iff_witness :
  Rbac.preventSelfModification ["role"; "accountStatus"] (Some "u2") None
    ["role"; "fullName"] true (request_of alice) = Returned (Next tt)
  /\ Rbac.preventSelfModification ["role"; "accountStatus"] (Some "u1") None
       ["role"; "fullName"] true (request_of alice)
     = Returned (NextErr (mkAppError "You cannot modify your own role." 403))
  /\ Rbac.preventSelfModification ["role"; "accountStatus"] (Some "u1") None
       ["fullName"; "hasOwnProperty"] true (request_of alice)
     = Threw "TypeError".
Proof.
  split; [|split].
  - destruct (preventSelfModification_blocks_iff ["role"; "accountStatus"] (Some "u2")
                None ["role"; "fullName"] true (request_of alice) alice eq_refl)
      as [Hother _].
    apply Hother. discriminate.
  - destruct (preventSelfModification_blocks_iff ["role"; "accountStatus"] (Some "u1")
                None ["role"; "fullName"] true (request_of alice) alice eq_refl)
      as [_ Hself].
    destruct (Hself eq_refl ltac:(discriminate) ltac:(discriminate)) as [_ Hplain].
    destruct Hplain as [_ Hblock].
    + intros [H | [H | []]]; discriminate H.
    + reflexivity.
    + apply Hblock. exists "role". split; left; reflexivity.
  - destruct (preventSelfModification_blocks_iff ["role"; "accountStatus"] (Some "u1")
                None ["fullName"; "hasOwnProperty"] true (request_of alice) alice eq_refl)
      as [_ Hself].
    destruct (Hself eq_refl ltac:(discriminate) ltac:(discriminate)) as [Hthrow _].
    apply Hthrow. left. right. left. reflexivity.
Defined.

(** ** Rate limiter keys *)

(** Under one prefix and one address, [createKeyGenerator] gives two
    requests the same key exactly when they have the same user id (the
    empty id standing for an anonymous request): users behind one
    address are counted apart. *)
Theorem createKeyGenerator_separates_users (prefix : string) (r1 r2 : Request) :
  ip r1 = ip r2 ->
  (RateLimiter.createKeyGenerator prefix r1 = RateLimiter.createKeyGenerator prefix r2
   <-> RateLimiter.userId_or_empty r1 = RateLimiter.userId_or_empty r2).
Proof.
  intros Hip. unfold RateLimiter.createKeyGenerator. rewrite Hip. split.
  - intros H. do 4 apply append_cancel_l in H. exact H.
  - intros ->. reflexivity.
Qed.

Lemma createKeyGenerator_separates_users_witness :
  RateLimiter.createKeyGenerator "api" (request_of alice)
  <> RateLimiter.createKeyGenerator "api" anonymous_request.
Proof.
  intros H.
  apply (createKeyGenerator_separates_users "api" (request_of alice) anonymous_request
           eq_refl) in H.
  discriminate H.
Defined.

Lemma lower_upper_ascii (c : ascii) :
  Js.lower_ascii (Js.upper_ascii c) = Js.lower_ascii c.
Proof.
  destruct c as [[] [] [] [] [] [] [] []]; reflexivity.
Qed.

Lemma toLowerCase_toUpperCase (s : string) :
  Js.toLowerCase (Js.toUpperCase s) = Js.toLowerCase s.
Proof.
  unfold Js.toLowerCase, Js.toUpperCase.
  induction s as [|c s IH]; simpl; [reflexivity|].
  rewrite lower_upper_ascii, IH. reflexivity.
Qed.

Lemma lower_lower_ascii (c : ascii) :
  Js.lower_ascii (Js.lower_ascii c) = Js.lower_ascii c.
Proof.
  destruct c as [[] [] [] [] [] [] [] []]; reflexivity.
Qed.

Lemma toLowerCase_idempotent (s : string) :
  Js.toLowerCase (Js.toLowerCase s) = Js.toLowerCase s.
Proof.
  unfold Js.toLowerCase.
  induction s as [|c s IH]; simpl; [reflexivity|].
  rewrite lower_lower_ascii, IH. reflexivity.
Qed.

(** The keys of the login limiter, of the password reset limiter and of
    the login speed limiter do not depend on the letter case of the
    claimed email: the email, its upper-cased and its lower-cased form
    share one counter; a missing and an empty email share one too. *)
Theorem auth_keys_ignore_email_case (address email : string) :
  let plain := login_attempt address (Some email) in
  let upper := login_attempt address (Some (Js.toUpperCase email)) in
  let lower := login_attempt address (Some (Js.toLowerCase email)) in
  (RateLimiter.authLimiter_key upper = RateLimiter.authLimiter_key plain
   /\ RateLimiter.authLimiter_key lower = RateLimiter.authLimiter_key plain)
  /\ (RateLimiter.passwordResetLimiter_key upper = RateLimiter.passwordResetLimiter_key plain
      /\ RateLimiter.passwordResetLimiter_key lower
         = RateLimiter.passwordResetLimiter_key plain)
  /\ (RateLimiter.keyGenerator RateLimiter.authSpeedLimiter upper
      = RateLimiter.keyGenerator RateLimiter.authSpeedLimiter plain
      /\ RateLimiter.keyGenerator RateLimiter.authSpeedLimiter lower
         = RateLimiter.keyGenerator RateLimiter.authSpeedLimiter plain)
  /\ RateLimiter.authLimiter_key (login_attempt address None)
     = RateLimiter.authLimiter_key (login_attempt address (Some "")).
Proof.
  assert (Hu : RateLimiter.claimed_email (login_attempt address (Some (Js.toUpperCase email)))
               = RateLimiter.claimed_email (login_attempt address (Some email))).
  { unfold RateLimiter.claimed_email. simpl. rewrite toLowerCase_toUpperCase. reflexivity. }
  assert (Hl : RateLimiter.claimed_email (login_attempt address (Some (Js.toLowerCase email)))
               = RateLimiter.claimed_email (login_attempt address (Some email))).
  { unfold RateLimiter.claimed_email. simpl. rewrite toLowerCase_idempotent. reflexivity. }
  intros plain upper lower.
  unfold RateLimiter.authLimiter_key, RateLimiter.passwordResetLimiter_key.
  simpl RateLimiter.keyGenerator. subst plain upper lower.
  rewrite Hu, Hl. repeat split.
Qed.

(** ** The save hook of the user schema *)

(** The save hook leaves a document whose password was not modified
    exactly as it is (the stored hash is not hashed again); for a new
    document it hashes the password and leaves [passwordChangedAt]
    alone; it fails, storing nothing, exactly when the password was
    modified and the hashing rejects. *)
Theorem pre_save_hashes_only_modified_passwords
    (hash : string -> Z -> option string) (now : Z) (d : UserModel.Document) :
  (UserModel.doc_passwordModified d = false -> UserModel.pre_save hash now d = Some d)
  /\ (forall d', UserModel.doc_passwordModified d = true ->
        UserModel.pre_save hash now d = Some d' ->
        hash (UserModel.doc_password d) 12 = Some (UserModel.doc_password d')
        /\ (UserModel.doc_isNew d = true ->
            UserModel.doc_passwordChangedAt d' = UserModel.doc_passwordChangedAt d))
  /\ (UserModel.pre_save hash now d = None
      <-> UserModel.doc_passwordModified d = true
          /\ hash (UserModel.doc_password d) 12 = None).
Proof.
  unfold UserModel.pre_save.
  destruct (UserModel.doc_passwordModified d); simpl.
  - split; [discriminate|]. split.
    + intros d' _. destruct (hash _ _) as [h|]; [|discriminate].
      intros [= <-]. simpl. split; [reflexivity|]. intros ->. reflexivity.
    + destruct (hash _ _); split; try discriminate; intuition discriminate.
  - split; [reflexivity|]. split; [discriminate|].
    split; [discriminate|]. intros [H _]. discriminate.
Qed.

(** ** CSRF check and token extraction *)

(** On a request with an unsafe method and no Bearer header,
    [csrfProtection] passes exactly when the signed cookie and the
    header hold the same non-empty token.  So a request with an unsafe
    method that passes without such a pair has a Bearer header, and
    [extractToken] then takes its token from that header, never from a
    cookie. *)
Theorem csrfProtection_guards_cookie_tokens (method : string)
    (csrfCookie csrfHeader : option string) (req : Request) :
  Js.includes ["GET"; "HEAD"; "OPTIONS"] method = false ->
  (has_bearer req = false ->
     (Security.csrfProtection method csrfCookie csrfHeader req = Next tt
      <-> Js.truthy csrfCookie = true /\ csrfCookie = csrfHeader))
  /\ (Security.csrfProtection method csrfCookie csrfHeader req = Next tt ->
      ~ (Js.truthy csrfCookie = true /\ csrfCookie = csrfHeader) ->
      exists h, headers_authorization req = Some h
                /\ Auth.extractToken req = Js.split " " h !! 1%nat).
Proof.
  intros Hm.
  assert (Hcookie : has_bearer req = false ->
            (Security.csrfProtection method csrfCookie csrfHeader req = Next tt
             <-> Js.truthy csrfCookie = true /\ csrfCookie = csrfHeader)).
  { intros Hb. unfold Security.csrfProtection. rewrite Hm.
    assert (Hbody :
      (if negb (Js.truthy csrfCookie) || negb (Js.truthy csrfHeader)
       then NextErr Security.err_csrf_missing
       else if negb (bool_decide (csrfCookie = csrfHeader))
            then NextErr Security.err_csrf_invalid else Next tt) = Next tt
      <-> Js.truthy csrfCookie = true /\ csrfCookie = csrfHeader).
    { destruct (Js.truthy csrfCookie) eqn:Hc; simpl.
      - destruct (Js.truthy csrfHeader) eqn:Hh; simpl.
        + destruct (bool_decide_reflect (csrfCookie = csrfHeader)); simpl;
            split; try discriminate; intuition congruence.
        + split; [discriminate|]. intros [_ ->]. congruence.
      - split; [discriminate|]. intros [H _]. discriminate. }
    unfold has_bearer in Hb.
    destruct (headers_authorization req) as [h|]; [rewrite Hb|]; exact Hbody. }
  split; [exact Hcookie|].
  intros Hpass Hnot.
  destruct (has_bearer req) eqn:Hb.
  - unfold has_bearer in Hb. destruct (headers_authorization req) as [h|] eqn:Hh;
      [|discriminate].
    exists h. split; [reflexivity|]. unfold Auth.extractToken. rewrite Hh, Hb. reflexivity.
  - exfalso. apply Hnot. apply (Hcookie eq_refl). exact Hpass.
Qed.

Lemma csrfProtection_guards_cookie_tokens_witness :
  Security.csrfProtection "POST" (Some "abc") (Some "abc")
    (request_with None (Some demo_token) None) = Next tt.
Proof.
  destruct (csrfProtection_guards_cookie_tokens "POST" (Some "abc") (Some "abc")
              (request_with None (Some demo_token) None) eq_refl) as [Hcookie _].
  apply (Hcookie eq_refl). split; reflexivity.
Defined.

(** ** [sanitizeBody] *)

Lemma has_gt_strip_scan (in_tag : bool) (s : string) :
  Validate.has_gt s = false -> Validate.has_gt (Validate.strip_scan in_tag s) = false.
Proof.
  revert in_tag. induction s as [|c s IH]; intros in_tag; simpl; [reflexivity|].
  intros [Hc Hs]%orb_false_elim. rewrite Hc.
  destruct in_tag.
  - apply IH. exact Hs.
  - rewrite Hs, andb_false_r. simpl. rewrite Hc. apply IH. exact Hs.
Qed.

Lemma has_tag_strip_scan (in_tag : bool) (s : string) :
  has_tag (Validate.strip_scan in_tag s) = false.
Proof.
  revert in_tag. induction s as [|c s IH]; intros in_tag; simpl; [reflexivity|].
  destruct in_tag.
  - destruct (Ascii.eqb c ">"); apply IH.
  - destruct (Ascii.eqb c "<") eqn:Hc; simpl.
    + destruct (Validate.has_gt s) eqn:Hs; simpl; [apply IH|].
      rewrite Hc, (has_gt_strip_scan false s Hs), IH. reflexivity.
    + rewrite Hc, IH. reflexivity.
Qed.

Lemma sanitize_value_clean (v : Validate.JsValue) :
  all_strings (fun s => negb (has_tag s)) (Validate.sanitize_value v) = true.
Proof.
  revert v. fix IH 1. intros [| b | n | s | items | fields]; simpl; try reflexivity.
  - unfold Validate.strip_tags. rewrite has_tag_strip_scan. reflexivity.
  - induction items as [|x items IHitems]; simpl; [reflexivity|].
    rewrite IH, IHitems. reflexivity.
  - induction fields as [|[k x] fields IHfields]; simpl; [reflexivity|].
    destruct (String.eqb k "__proto__"); simpl; [exact IHfields|].
    rewrite IH, IHfields. reflexivity.
Qed.

Lemma sanitize_value_shape (v : Validate.JsValue) :
  shape (Validate.sanitize_value v) = shape (without_proto v).
Proof.
  revert v. fix IH 1. intros [| b | n | s | items | fields]; simpl; try reflexivity.
  - f_equal. induction items as [|x items IHitems]; simpl; [reflexivity|].
    rewrite IH, IHitems. reflexivity.
  - f_equal. induction fields as [|[k x] fields IHfields]; simpl; [reflexivity|].
    destruct (String.eqb k "__proto__"); simpl; [exact IHfields|].
    rewrite IH, IHfields. reflexivity.
Qed.

(** After [sanitizeBody] no string value of an object or array body, at
    any depth, contains a ['<'] followed by a ['>'], so the pattern
    [/<[^>]*>/] matches nowhere in it.  The own properties of the result
    are those of the body, nested alike, except that a property named
    ['__proto__'] is lost at whatever depth it stands. *)
Theorem sanitizeBody_leaves_no_tag (body : Validate.JsValue) :
  (exists items, body = Validate.JsArray items)
  \/ (exists fields, body = Validate.JsObject fields) ->
  exists clean,
    Validate.sanitizeBody (Some body) = Some clean
    /\ all_strings (fun s => negb (has_tag s)) clean = true
    /\ shape clean = shape (without_proto body).
Proof.
  intros Hobj. exists (Validate.sanitize_value body).
  split; [|split].
  - destruct Hobj as [[items ->] | [fields ->]]; reflexivity.
  - apply sanitize_value_clean.
  - apply sanitize_value_shape.
Qed.

Lemma sanitizeBody_leaves_no_tag_witness :
  exists clean,
    Validate.sanitizeBody
      (Some (Validate.JsObject
               [("name", Validate.JsString "  <b>Ann</b> <<i>script>x ");
                ("__proto__", Validate.JsObject [("role", Validate.JsString "ADMIN")]);
                ("tags", Validate.JsArray [Validate.JsString "a<b"; Validate.JsNumber 3])]))
    = Some clean
    /\ all_strings (fun s => negb (has_tag s)) clean = true
    /\ shape clean
       = Validate.JsObject
           [("name", Validate.JsNull);
            ("tags", Validate.JsArray [Validate.JsNull; Validate.JsNull])].
Proof.
  apply (sanitizeBody_leaves_no_tag
           (Validate.JsObject
              [("name", Validate.JsString "  <b>Ann</b> <<i>script>x ");
               ("__proto__", Validate.JsObject [("role", Validate.JsString "ADMIN")]);
               ("tags", Validate.JsArray [Validate.JsString "a<b"; Validate.JsNumber 3])])).
  right. eexists. reflexivity.
Defined.

(** ** CORS origins *)

Lemma includes_app (xs ys : list string) (x : string) :
  Js.includes (xs ++ ys) x = Js.includes xs x || Js.includes ys x.
Proof. unfold Js.includes. apply existsb_app. Qed.

(** A request without an origin passes both origin checks; in
    development the general check passes every origin; and every origin
    the strict check passes, the general check passes too. *)
Theorem strict_cors_within_cors (env : Cors.CorsEnv) (origin : option string) :
  (Js.truthy origin = false ->
     Cors.corsOrigin env origin = Next tt /\ Cors.strictCorsOrigin env origin = Next tt)
  /\ (Cors.is_development env = true -> Cors.corsOrigin env origin = Next tt)
  /\ (Cors.strictCorsOrigin env origin = Next tt -> Cors.corsOrigin env origin = Next tt).
Proof.
  unfold Cors.corsOrigin, Cors.strictCorsOrigin.
  destruct origin as [o|]; [|repeat split].
  destruct (Js.truthy (Some o)) eqn:Ht; cbn [negb orb].
  - split; [discriminate|]. split.
    + intros ->. destruct (Js.includes _ o); reflexivity.
    + destruct (Cors.is_development env) eqn:Hd.
      * intros _. destruct (Js.includes _ o); reflexivity.
      * unfold Cors.getAllowedOrigins. rewrite Hd, !includes_app.
        change (Js.includes [] o) with false.
        destruct (Js.includes (Cors.if_set (Cors.ADMIN_URL env)) o);
          destruct (Js.includes (Cors.if_set (Cors.FRONTEND_URL env)) o);
          cbn [orb]; rewrite ?orb_true_r; try reflexivity.
        discriminate.
  - repeat split.
Qed.

Lemma strict_cors_within_cors_witness :
  Cors.corsOrigin
    (Cors.mkCorsEnv (Some "https://app.example") (Some "https://admin.example")
       (Some "https://a.example, https://b.example") (Some "production"))
    (Some "https://admin.example") = Next tt.
Proof.
  destruct (strict_cors_within_cors
              (Cors.mkCorsEnv (Some "https://app.example") (Some "https://admin.example")
                 (Some "https://a.example, https://b.example") (Some "production"))
              (Some "https://admin.example")) as (_ & _ & Hstrict).
  apply Hstrict. reflexivity.
Defined.

(** ** Revocations written during a Redis outage *)

(** A revocation written while the Redis commands reject lands in the
    in-process set only.  It is honoured as long as the outage lasts,
    but once the open client resolves again [isTokenBlacklisted] asks
    Redis alone, finds no entry and reports the identifier as not
    blacklisted. *)
Theorem revocation_during_outage_forgotten (st : State) (c : RedisClient)
    (jti : string) (ttl : Z) :
  redisClient st = Some c ->
  isOpen c = true ->
  redis_rejects c = true ->
  redis_data c !! Auth.blacklist_key jti = None ->
  Auth.isTokenBlacklisted (Auth.blacklistToken st jti ttl) jti = true
  /\ jti ∈ tokenBlacklist (redis_recovers (Auth.blacklistToken st jti ttl))
  /\ Auth.isTokenBlacklisted (redis_recovers (Auth.blacklistToken st jti ttl)) jti = false.
Proof.
  intros Hc Ho Hr Hd.
  assert (Hst : Auth.blacklistToken st jti ttl = Auth.add_local st jti).
  { unfold Auth.blacklistToken. rewrite Hc, Ho. unfold redis_setEx. rewrite Hr.
    reflexivity. }
  rewrite Hst. split; [|split].
  - unfold Auth.isTokenBlacklisted. simpl. rewrite Hc, Ho. unfold redis_get.
    rewrite Hr. apply has_true. set_solver.
  - simpl. set_solver.
  - unfold Auth.isTokenBlacklisted, redis_recovers. simpl. rewrite Hc. simpl.
    rewrite Ho. unfold redis_get. simpl. rewrite Hd. reflexivity.
Qed.

Lemma revocation_during_outage_forgotten_witness :
  Auth.isTokenBlacklisted
    (redis_recovers
       (Auth.blacklistToken
          (mkState (Some (mkRedisClient true ∅ true)) ∅ {["u1" := alice]} false)
          "jti-1" 890))
    "jti-1" = false.
Proof.
  apply (revocation_during_outage_forgotten
           (mkState (Some (mkRedisClient true ∅ true)) ∅ {["u1" := alice]} false)
           (mkRedisClient true ∅ true) "jti-1" 890); reflexivity.
Defined.

(** ** The errors of [protect] *)

(** Closes a goal [(exists token d, ...) -> False] about a lookup that
    rejected, given how the token verified. *)
Ltac no_rejected_lookup Hv :=
  let t' := fresh "t" in
  let d' := fresh "d" in
  let Hv' := fresh "Hv" in
  let Hr' := fresh "Hr" in
  let Hu' := fresh "Hu" in
  intros (t' & d' & [= <-] & _ & Hv' & Hr' & Hu');
  rewrite Hv in Hv';
  first [discriminate Hv' | injection Hv' as <-; congruence].

(** Every error of [protect] has status 401, 403 or 500, and the status
    is 500 exactly when a non-empty token verified, was not revoked, and
    the lookup of the user rejected. *)
Theorem protect_error_statuses (lib : JwtLib) (env : ProcessEnv) (st : State)
    (now : Z) (req : Request) (e : AppError) :
  Auth.protect lib env st now req = NextErr e ->
  (statusCode e = 401 \/ statusCode e = 403 \/ statusCode e = 500)
  /\ (statusCode e = 500
      <-> exists token d,
            Auth.extractToken req = Some token
            /\ token <> ""
            /\ jwt_verify lib token (JWT_SECRET env) now = JwtOk d
            /\ Auth.revoked st d = false
            /\ User_findById st (claim_id d) = Rejects).
Proof.
  unfold Auth.protect.
  destruct (Auth.extractToken req) as [t|] eqn:Hx.
  - destruct (Js.truthy (Some t)) eqn:Ht; cbn [negb].
    + destruct (jwt_verify lib t (JWT_SECRET env) now) as [d|[]] eqn:Hv.
      * destruct (Auth.revoked st d) eqn:Hr.
        -- intros [= <-]. split; [left; reflexivity|].
           split; [discriminate | no_rejected_lookup Hv].
        -- unfold Auth.check_user.
           destruct (User_findById st (claim_id d)) as [[user|]|] eqn:Hu.
           ++ destruct (AccountStatus_eqb (accountStatus user) ACTIVE); cbn [negb];
                [destruct (Auth.role_active user); cbn [negb];
                 [destruct (UserModel.changedPasswordAfter _ _); [|discriminate]|]|];
                intros [= <-]; (split; [auto|]);
                (split; [discriminate | no_rejected_lookup Hv]).
           ++ intros [= <-]. split; [left; reflexivity|].
              split; [discriminate | no_rejected_lookup Hv].
           ++ intros [= <-]. split; [right; right; reflexivity|].
              split; [|reflexivity]. intros _. exists t, d.
              apply truthy_Some in Ht. auto.
      * intros [= <-]. split; [left; reflexivity|].
        split; [discriminate | no_rejected_lookup Hv].
      * intros [= <-]. split; [left; reflexivity|].
        split; [discriminate | no_rejected_lookup Hv].
      * intros [= <-]. split; [left; reflexivity|].
        split; [discriminate | no_rejected_lookup Hv].
    + intros [= <-]. split; [left; reflexivity|]. split; [discriminate|].
      intros (t' & d' & [= <-] & Hne & _).
      apply truthy_Some in Hne. congruence.
  - simpl. intros [= <-]. split; [left; reflexivity|]. split; [discriminate|].
    intros (t' & d' & Hx' & _). discriminate.
Qed.

Lemma protect_error_statuses_witness :
  statusCode Auth.err_revoked = 401 \/ statusCode Auth.err_revoked = 403
  \/ statusCode Auth.err_revoked = 500.
Proof.
  destruct (protect_error_statuses demoJwt demoEnv st_logged_out demo_now bearer_request
              Auth.err_revoked eq_refl) as [Hcodes _].
  exact Hcodes.
Defined.
